(** * asf-example: the version-bump utility, embedded and verified

    A shallow embedding of [src/asf/example/__init__.py]: the version
    model ([HeadVersion], [parse_version], [__str__]), the bump rules
    ([calculate_bumped_version]), the reader of the committed manifest
    ([read_head_version]), the structured edit ([replace_key_in_section]),
    the two write-temp-then-replace updates ([update_init_version],
    [update_pyproject_version]) and the command ([run_using_args]).

    Conventions of the embedding.
    - Text is Stdlib's [string]: a character is a code point between 0 and
      255.  On that range Python's [\d] is exactly [0-9], [\s] is the set
      listed in [is_space], and [.] is everything but the line feed.
    - Python's [int] is unbounded and modelled by [N] (the fields of a
      version come from [\d+], so they are never negative).  [int()] and
      [str()] refuse to convert more digits than the interpreter's limit
      ([sys.get_int_max_str_digits()]: 4300 unless the interpreter was
      started otherwise, 0 for no limit) and raise [ValueError]; the limit
      is read from the [environment].
    - [report_error_and_exit] prints one line on standard error and raises
      [SystemExit(2)]; a [result] keeps the line and the code.  [trace]
      only prints diagnostics on standard error and is left out.
    - What the interpreter, the libraries and the operating system decide
      (the limit on digits, the TOML parser, the UTF-8 codec, the clock,
      the names [mkstemp] tries, an I/O failure) is read from an
      [environment] record. *)

From Stdlib Require Import ZArith NArith Ascii String.
From Stdlib Require Import Decimal DecimalString DecimalN DecimalFacts.
From stdpp Require Import base option list strings gmap.

Set Default Proof Using "Type".
Set Warnings "-register-all".

(** ** The Python runtime: results and text *)

(** An exception object, by what [str(exc)] prints. *)
Inductive exception : Type :=
| Exception (message : string).

(** How a call ends: it returns, an [Exception] propagates, or
    [SystemExit] propagates.  [SystemExit] is a [BaseException]:
    [except Exception] does not catch it. *)
Inductive result (A : Type) : Type :=
| Return (a : A)
| Raise (e : exception)
| SystemExit (code : Z) (stderr : string).

Arguments Return {A} a.
Arguments Raise {A} e.
Arguments SystemExit {A} code stderr.

#[global] Instance result_ret : MRet result := fun A a => Return a.

#[global] Instance result_bind : MBind result := fun A B f m =>
  match m with
  | Return a => f a
  | Raise e => Raise e
  | SystemExit code line => SystemExit code line
  end.

(** [report_error_and_exit]: [print(f"error: {message}", file=sys.stderr)]
    and [raise SystemExit(2)]. *)
Definition report_error_and_exit {A : Type} (message : string) : result A :=
  SystemExit 2 ("error: " +:+ message).

Definition LF : ascii := "010"%char.
Definition CR : ascii := "013"%char.

(** [\d] on code points below 256. *)
Definition is_digit (a : ascii) : bool :=
  let n := N_of_ascii a in ((48 <=? n) && (n <=? 57))%N.

(** [\s] on code points below 256: tab to carriage return, the four
    separators 0x1c to 0x1f, the space, NEL and the no-break space. *)
Definition is_space (a : ascii) : bool :=
  let n := N_of_ascii a in
  (((9 <=? n) && (n <=? 13)) || ((28 <=? n) && (n <=? 32))
   || (n =? 133) || (n =? 160))%N.

(** ** Regular expressions: the part of [re] the program uses

    A backtracking matcher in continuation-passing style, alternatives
    tried in the order [re] tries them; a group records the text its
    sub-pattern consumed. *)
Module Re.

Inductive charclass : Type :=
| Digit               (* \d *)
| Space               (* \s *)
| Dot                 (* .  (no DOTALL flag) *)
| Chr (a : ascii).    (* a literal character *)

Definition class_mem (cl : charclass) (a : ascii) : bool :=
  match cl with
  | Digit => is_digit a
  | Space => is_space a
  | Dot => negb (Ascii.eqb a LF)
  | Chr b => Ascii.eqb a b
  end.

Inductive regex : Type :=
| Eps
| One (cl : charclass)
| Cat (r1 r2 : regex)
| Alt (r1 r2 : regex)              (* ordered choice: r1 first *)
| Star (greedy : bool) (r : regex) (* r* when greedy, r*? otherwise *)
| Group (n : nat) (r : regex).     (* the n-th capturing group *)

(** [r+], [r?] and a literal text. *)
Definition Plus (r : regex) : regex := Cat r (Star true r).
Definition Opt (r : regex) : regex := Alt r Eps.
Fixpoint Lit (s : string) : regex :=
  match s with
  | EmptyString => Eps
  | String a s' => Cat (One (Chr a)) (Lit s')
  end.

(** Every character of [s] is in the class. *)
Fixpoint all_in (cl : charclass) (s : string) : bool :=
  match s with
  | EmptyString => true
  | String a s' => class_mem cl a && all_in cl s'
  end.

Definition captures : Type := gmap nat string.
Definition cont : Type := string -> captures -> option captures.

(** The text consumed between [s] and its suffix [s']. *)
Definition consumed (s s' : string) : string :=
  String.substring 0 (String.length s - String.length s') s.

Definition orelse (a b : option captures) : option captures :=
  match a with
  | Some c => Some c
  | None => b
  end.

(** The repetition loop.  [n] bounds the iterations left; every iteration
    must consume a character, so [String.length s] iterations are enough. *)
Fixpoint star_loop (greedy : bool) (body : string -> captures -> cont -> option captures)
    (k : cont) (n : nat) (s : string) (c : captures) : option captures :=
  let more :=
    match n with
    | O => None
    | S n' =>
        body s c (fun s' c' =>
          if (String.length s' <? String.length s)%nat
          then star_loop greedy body k n' s' c' else None)
    end in
  if greedy then orelse more (k s c) else orelse (k s c) more.

Fixpoint run (r : regex) (s : string) (c : captures) (k : cont) : option captures :=
  match r with
  | Eps => k s c
  | One cl =>
      match s with
      | String a s' => if class_mem cl a then k s' c else None
      | EmptyString => None
      end
  | Cat r1 r2 => run r1 s c (fun s' c' => run r2 s' c' k)
  | Alt r1 r2 => orelse (run r1 s c k) (run r2 s c k)
  | Star greedy r1 => star_loop greedy (run r1) k (String.length s) s c
  | Group n r1 => run r1 s c (fun s' c' => k s' (<[n := consumed s s']> c'))
  end.

(** [re.fullmatch(r, s)]: the groups of the match, or [None]. *)
Definition fullmatch (r : regex) (s : string) : option captures :=
  run r s ∅ (fun s' c => match s' with EmptyString => Some c | _ => None end).

(** [match.group(n)]. *)
Definition group (m : captures) (n : nat) : option string := m !! n.

(** What a pattern denotes: [Matches r s c c'] when [r] can consume exactly
    [s], turning the groups [c] into [c']. *)
Inductive Matches : regex -> string -> captures -> captures -> Prop :=
| MEps c : Matches Eps "" c c
| MOne cl a c : class_mem cl a = true -> Matches (One cl) (String a "") c c
| MCat r1 r2 s1 s2 c c1 c2 :
    Matches r1 s1 c c1 -> Matches r2 s2 c1 c2 ->
    Matches (Cat r1 r2) (s1 +:+ s2) c c2
| MAltL r1 r2 s c c1 : Matches r1 s c c1 -> Matches (Alt r1 r2) s c c1
| MAltR r1 r2 s c c1 : Matches r2 s c c1 -> Matches (Alt r1 r2) s c c1
| MStar0 g r c : Matches (Star g r) "" c c
| MStarS g r s1 s2 c c1 c2 :
    s1 <> "" -> Matches r s1 c c1 -> Matches (Star g r) s2 c1 c2 ->
    Matches (Star g r) (s1 +:+ s2) c c2
| MGroup n r s c c1 :
    Matches r s c c1 -> Matches (Group n r) s c (<[n := s]> c1).

End Re.

(** ** What the libraries and the operating system decide *)

(** tomlkit documents, by their content.  A container maps keys to items,
    as the [dict] it is; an item is a string, another scalar, an array (or
    an array of tables), an inline table, a table, or the proxy tomlkit
    hands out for a table whose parts are declared in separated places of
    the text.  The layout tomlkit keeps besides (the order of the entries,
    comments, white space) is not part of the model: where an assignment
    places an entry in the text is between [toml_parse] and [toml_dumps]. *)
Module tomlkit.

Inductive Item : Type :=
| IString (s : string)
| IInteger (n : Z)
| IBool (b : bool)
| IArray (elems : list Item)
| IInlineTable (body : gmap string Item)
| IOutOfOrderTable (body : gmap string Item)   (* container.OutOfOrderTableProxy *)
| ITable (body : gmap string Item).

Abbreviation Container := (gmap string Item).

(** [container.get(key)]. *)
Definition get (c : Container) (key : string) : option Item := c !! key.

(** [container[key] = v]. *)
Definition setitem (c : Container) (key : string) (v : Item) : Container :=
  <[key := v]> c.

#[global] Arguments get : simpl never.
#[global] Arguments setitem : simpl never.

(** [tomlkit.table()]. *)
Definition table : Item := ITable ∅.

(** [isinstance(item, tomlkit.items.Table)]: an inline table is not one,
    nor is the proxy of a table declared in separated places. *)
Definition is_Table (item : option Item) : bool :=
  match item with
  | Some (ITable _) => true
  | _ => false
  end.

(** [type(item)], as an f-string prints it. *)
Definition type_repr (item : option Item) : string :=
  match item with
  | None => "<class 'NoneType'>"
  | Some (IString _) => "<class 'tomlkit.items.String'>"
  | Some (IInteger _) => "<class 'tomlkit.items.Integer'>"
  | Some (IBool _) => "<class 'tomlkit.items.Bool'>"
  | Some (IArray _) => "<class 'tomlkit.items.Array'>"
  | Some (IInlineTable _) => "<class 'tomlkit.items.InlineTable'>"
  | Some (IOutOfOrderTable _) => "<class 'tomlkit.container.OutOfOrderTableProxy'>"
  | Some (ITable _) => "<class 'tomlkit.items.Table'>"
  end.

(** The table reached by following [path] through tables. *)
Fixpoint table_path (c : Container) (path : list string) : option Container :=
  match path with
  | [] => Some c
  | part :: rest =>
      match get c part with
      | Some (ITable inner) => table_path inner rest
      | _ => None
      end
  end.

(** The entry under [key] in the table reached by following [path]. *)
Fixpoint lookup_path (c : Container) (path : list string) (key : string) : option Item :=
  match path with
  | [] => get c key
  | part :: rest =>
      match get c part with
      | Some (ITable inner) => lookup_path inner rest key
      | _ => None
      end
  end.

End tomlkit.

(** Objects of the git object store, as [pygit2] hands them out. *)
Inductive git_object : Type :=
| Blob (data : list Byte.byte)
| Tree
| Commit
| Tag.

(** A [pygit2.Repository]: [is_bare], and what [revparse_single] does on a
    revision text (it raises, or it returns an object). *)
Record Repository : Type := mkRepository {
  is_bare : bool;
  revparse_single : string -> exception + git_object
}.

(** The I/O steps that can fail, each with the exception it raises when it
    does; reads and writes are numbered from 0 within one update. *)
Record os_errors : Type := mk_os_errors {
  mkstemp_error : option exception;
  fdopen_error : option exception;
  open_error : option exception;
  read_error : nat -> option exception;
  write_error : nat -> option exception;
  close_error : option exception;
  replace_error : option exception;
  remove_error : option exception
}.

Record environment : Type := mk_environment {
  int_max_str_digits : nat;                              (* sys.get_int_max_str_digits() *)
  utf8_decode : list Byte.byte -> exception + string;    (* bytes.decode("utf-8") *)
  toml_parse : string -> exception + tomlkit.Container;  (* tomlkit.parse *)
  toml_dumps : tomlkit.Container -> string;              (* tomlkit.dumps *)
  utcnow : string;       (* datetime.now(UTC).strftime("%Y-%m-%dT%H:%M:%SZ") *)
  module_dir : string;   (* pathlib.Path(__file__).parent *)
  tmp_random : list string;  (* the random parts mkstemp tries, in turn *)
  errors : os_errors
}.

Definition of_sum {A : Type} (x : exception + A) : result A :=
  match x with
  | inl e => Raise e
  | inr a => Return a
  end.

(** ** Integers and their numerals *)

(** [sys.int_info.str_digits_check_threshold]: conversions of at most this
    many digits are never checked against the limit. *)
Definition str_digits_check_threshold : nat := 640.

(** Whether a conversion of [digits] digits is refused under the limit
    [max_str_digits]; the limit 0 lets every conversion through. *)
Definition exceeds_limit (max_str_digits digits : nat) : bool :=
  (str_digits_check_threshold <? digits) && (0 <? max_str_digits)
  && (max_str_digits <? digits).

#[global] Arguments exceeds_limit : simpl never.

(** The decimal numeral of a number, no leading zero. *)
Definition decimal (n : N) : string := NilZero.string_of_uint (N.to_uint n).
Definition decimal_nat (n : nat) : string := NilZero.string_of_uint (Nat.to_uint n).

(** [int(s)] on the texts [parse_version] passes to it, the non-empty
    digit strings: every digit counts for the limit, leading zeros too.
    On other texts the model raises [ValueError]. *)
Definition py_int (E : environment) (s : string) : result N :=
  match NilZero.uint_of_string s with
  | Some d =>
      if exceeds_limit (int_max_str_digits E) (String.length s) then
        Raise (Exception
          ("Exceeds the limit (" +:+ decimal_nat (int_max_str_digits E)
           +:+ " digits) for integer string conversion: value has "
           +:+ decimal_nat (String.length s)
           +:+ " digits; use sys.set_int_max_str_digits() to increase the limit"))
      else Return (N.of_uint d)
  | None => Raise (Exception ("invalid literal for int() with base 10: '" +:+ s +:+ "'"))
  end.

(** The [ValueError] of [str(n)] on a numeral over the limit. *)
Definition str_limit_error (E : environment) : exception :=
  Exception
    ("Exceeds the limit (" +:+ decimal_nat (int_max_str_digits E)
     +:+ " digits) for integer string conversion"
     +:+ "; use sys.set_int_max_str_digits() to increase the limit").

(** [str(n)] and [f"{n}"] for an [int]: the decimal numeral, when it is
    within the limit. *)
Definition py_str (E : environment) (n : N) : result string :=
  if exceeds_limit (int_max_str_digits E) (String.length (decimal n))
  then Raise (str_limit_error E)
  else Return (decimal n).

(** ** The version model *)

(** [class BumpMode(enum.Enum)]. *)
Inductive BumpMode : Type :=
| RELEASE
| DEV
| SPECIFIC.

(** [@dataclasses.dataclass(frozen=True) class HeadVersion]. *)
Record HeadVersion : Type := mkHeadVersion {
  major : N;
  minor : N;
  patch : N;
  dev : option N
}.

(** [HeadVersion.__str__]: the fields of the f-string are formatted from
    left to right. *)
Definition HeadVersion_str (E : environment) (self : HeadVersion) : result string :=
  match dev self with
  | None =>
      a ← py_str E (major self);
      b ← py_str E (minor self);
      c ← py_str E (patch self);
      mret (a +:+ "." +:+ b +:+ "." +:+ c)
  | Some d =>
      a ← py_str E (major self);
      b ← py_str E (minor self);
      c ← py_str E (patch self);
      d' ← py_str E d;
      mret (a +:+ "." +:+ b +:+ "." +:+ c +:+ "-dev" +:+ d')
  end.

Definition ZERO_VERSION_SENTINEL : HeadVersion :=
  {| major := 0; minor := 0; patch := 0; dev := None |}.

(** The pattern of [parse_version]: [(\d+)\.(\d+)\.(\d+)(?:-dev(\d+))?]. *)
Definition version_re : Re.regex :=
  Re.Cat (Re.Group 1 (Re.Plus (Re.One Re.Digit)))
 (Re.Cat (Re.One (Re.Chr "."))
 (Re.Cat (Re.Group 2 (Re.Plus (Re.One Re.Digit)))
 (Re.Cat (Re.One (Re.Chr "."))
 (Re.Cat (Re.Group 3 (Re.Plus (Re.One Re.Digit)))
         (Re.Opt (Re.Cat (Re.Lit "-dev") (Re.Group 4 (Re.Plus (Re.One Re.Digit))))))))).

(** [int(match.group(n))]; a group that did not take part is [None] in
    Python, and [int(None)] raises [TypeError]. *)
Definition int_group (E : environment) (m : Re.captures) (n : nat) : result N :=
  match Re.group m n with
  | Some g => py_int E g
  | None => Raise (Exception "int() argument must be a string, a bytes-like object or a real number, not 'NoneType'")
  end.

(** [parse_version]. *)
Definition parse_version (E : environment) (version : string) : result HeadVersion :=
  match Re.fullmatch version_re version with
  | None => report_error_and_exit ("unsupported version format: " +:+ version)
  | Some m =>
      major ← int_group E m 1;
      minor ← int_group E m 2;
      patch ← int_group E m 3;
      dev ← match Re.group m 4 with
            | Some g => d ← py_int E g; mret (Some d)
            | None => mret None
            end;
      mret {| major := major; minor := minor; patch := patch; dev := dev |}
  end.

(** ** Reading the committed version *)

(** [data.get("project", {}).get("version")]: only mappings have [get]. *)
Definition project_version (data : tomlkit.Container) : result (option tomlkit.Item) :=
  match tomlkit.get data "project" with
  | None => Return None
  | Some (tomlkit.ITable t) | Some (tomlkit.IInlineTable t)
  | Some (tomlkit.IOutOfOrderTable t) => Return (tomlkit.get t "version")
  | Some _ => Raise (Exception "object has no attribute 'get'")
  end.

(** [read_head_version]. *)
Definition read_head_version (E : environment) (repo : Repository) : result HeadVersion :=
  if is_bare repo then
    report_error_and_exit "a working tree, not a bare git repository, is required"
  else
    match revparse_single repo "HEAD:pyproject.toml" with
    | inl _ =>
        (* This may be the first commit with pyproject.toml *)
        Return ZERO_VERSION_SENTINEL
    | inr (Blob bytes) =>
        content ← of_sum (utf8_decode E bytes);
        data ← of_sum (toml_parse E content);
        head_version ← project_version data;
        match head_version with
        | Some (tomlkit.IString s) => parse_version E s
        | _ => report_error_and_exit "version missing in pyproject.toml in HEAD"
        end
    | inr _ => report_error_and_exit "pyproject.toml is in HEAD, but not a regular file"
    end.

(** ** The bump rules *)

(** [calculate_bumped_version]. *)
Definition calculate_bumped_version (E : environment) (repository : Repository)
    (mode : BumpMode) (specific : option string) : result (HeadVersion * string) :=
  match mode with
  | SPECIFIC =>
      match specific with
      | None => report_error_and_exit "specific version required"
      | Some v => Return (ZERO_VERSION_SENTINEL, v)
      end
  | RELEASE =>
      head_version ← read_head_version E repository;
      match dev head_version with
      | Some _ =>
          let bumped := mkHeadVersion (major head_version) (minor head_version)
                          (patch head_version) None in
          text ← HeadVersion_str E bumped;
          Return (head_version, text)
      | None =>
          let bumped := mkHeadVersion (major head_version) (minor head_version)
                          (patch head_version + 1) None in
          text ← HeadVersion_str E bumped;
          Return (head_version, text)
      end
  | DEV =>
      head_version ← read_head_version E repository;
      match dev head_version with
      | None =>
          let bumped := mkHeadVersion (major head_version) (minor head_version)
                          (patch head_version + 1) (Some 1%N) in
          text ← HeadVersion_str E bumped;
          Return (head_version, text)
      | Some d =>
          let bumped := mkHeadVersion (major head_version) (minor head_version)
                          (patch head_version) (Some (d + 1)%N) in
          text ← HeadVersion_str E bumped;
          Return (head_version, text)
      end
  end.

(** ** The structured edit *)

(** [s.split(sep)] for a one-character separator. *)
Fixpoint split (sep : ascii) (s : string) : list string :=
  match s with
  | EmptyString => [EmptyString]
  | String a s' =>
      if Ascii.eqb a sep then EmptyString :: split sep s'
      else match split sep s' with
           | p :: ps => String a p :: ps
           | [] => [String a EmptyString]
           end
  end.

(** The loop of [replace_key_in_section] and the assignment after it.
    [current = item.value] aliases the table inside the document, so what
    is written below it is written to the document: the edited table is put
    back under its key. *)
Fixpoint replace_key_loop (parts : list string) (key value : string)
    (current : tomlkit.Container) : result tomlkit.Container :=
  match parts with
  | [] => Return (tomlkit.setitem current key (tomlkit.IString value))
  | part :: rest =>
      let item := tomlkit.get current part in
      let current1 :=
        if tomlkit.is_Table item then current
        else tomlkit.setitem current part tomlkit.table in
      let item1 := if tomlkit.is_Table item then item else tomlkit.get current1 part in
      match item1 with
      | Some (tomlkit.ITable inner) =>
          inner' ← replace_key_loop rest key value inner;
          Return (tomlkit.setitem current1 part (tomlkit.ITable inner'))
      | _ =>
          (* Should be impossible *)
          report_error_and_exit ("expected table, got " +:+ tomlkit.type_repr item1)
      end
  end.

(** [replace_key_in_section]. *)
Definition replace_key_in_section (E : environment) (text section key value : string)
    : result string :=
  doc ← of_sum (toml_parse E text);
  doc' ← replace_key_loop (split "." section) key value doc;
  mret (toml_dumps E doc').

(** ** Files *)

(** The file system: the text of every file, by path.  A computation on it
    ends as a [result] and leaves a file system behind. *)
Definition io (A : Type) : Type := gmap string string -> result A * gmap string string.

#[global] Instance io_ret : MRet io := fun A a w => (Return a, w).

#[global] Instance io_bind : MBind io := fun A B f m w =>
  match m w with
  | (Return a, w') => f a w'
  | (Raise e, w') => (Raise e, w')
  | (SystemExit code line, w') => (SystemExit code line, w')
  end.

Definition lift {A : Type} (r : result A) : io A := fun w => (r, w).

(** [try: body except Exception as exc: handler(exc)]. *)
Definition try_except {A : Type} (body : io A) (handler : exception -> io A) : io A :=
  fun w =>
    match body w with
    | (Raise e, w') => handler e w'
    | other => other
    end.

(** A step that fails when the environment says so. *)
Definition may_fail (err : option exception) : io unit :=
  match err with
  | Some e => lift (Raise e)
  | None => mret tt
  end.

(** [tempfile.mkstemp(prefix, suffix, dir)]: the first name that does not
    exist yet is created, empty.  The name is [dir/prefix<random>suffix]
    (recent interpreters hand out its absolute form; what matters below is
    that it is not the name of the target). *)
Fixpoint first_free (dir pre suf : string) (randoms : list string)
    (w : gmap string string) : option string :=
  match randoms with
  | [] => None
  | r :: rs =>
      let name := dir +:+ "/" +:+ pre +:+ r +:+ suf in
      match w !! name with
      | None => Some name
      | Some _ => first_free dir pre suf rs w
      end
  end.

Definition mkstemp (E : environment) (pre suf dir : string) : io string :=
  _ ← may_fail (mkstemp_error (errors E));
  ((fun w =>
    match first_free dir pre suf (tmp_random E) w with
    | Some name => (Return name, <[name := ""]> w)
    | None => (Raise (Exception "No usable temporary file name found"), w)
    end) : io string).

(** [path.open("r", encoding="utf-8", newline="")]: the text of the file. *)
Definition open_read (E : environment) (path : string) : io string :=
  _ ← may_fail (open_error (errors E));
  ((fun w =>
    match w !! path with
    | Some text => (Return text, w)
    | None => (Raise (Exception ("No such file or directory: '" +:+ path +:+ "'")), w)
    end) : io string).

(** [tmp.write(text)], the [i]-th write of the update. *)
Definition file_write (E : environment) (name : string) (i : nat) (text : string) : io unit :=
  _ ← may_fail (write_error (errors E) i);
  ((fun w => (Return tt, <[name := default "" (w !! name) +:+ text]> w)) : io unit).

(** [os.replace(src, dst)]: all or nothing. *)
Definition os_replace (E : environment) (src dst : string) : io unit :=
  _ ← may_fail (replace_error (errors E));
  ((fun w =>
    match w !! src with
    | Some text => (Return tt, <[dst := text]> (delete src w))
    | None => (Raise (Exception ("No such file or directory: '" +:+ src +:+ "'")), w)
    end) : io unit).

(** [os.remove(path)]. *)
Definition os_remove (E : environment) (path : string) : io unit :=
  _ ← may_fail (remove_error (errors E));
  ((fun w =>
    match w !! path with
    | Some _ => (Return tt, delete path w)
    | None => (Raise (Exception ("No such file or directory: '" +:+ path +:+ "'")), w)
    end) : io unit).

(** [for line in src] on a file opened with [newline=""]: a line ends after
    a line feed, a carriage return, or a carriage return and a line feed,
    and keeps its ending; the last line may have none. *)
Fixpoint lines (text : string) : list string :=
  match text with
  | EmptyString => []
  | String a rest =>
      if Ascii.eqb a LF then String a EmptyString :: lines rest
      else if Ascii.eqb a CR then
        match rest with
        | String b rest' =>
            if Ascii.eqb b LF then String a (String b EmptyString) :: lines rest'
            else String a EmptyString :: lines rest
        | EmptyString => [String a EmptyString]
        end
      else
        match lines rest with
        | l :: ls => String a l :: ls
        | [] => [String a EmptyString]
        end
  end.

(** The text of a file written line by line. *)
Definition join (ls : list string) : string := foldr String.append "" ls.

(** [a in s]. *)
Fixpoint contains (a : ascii) (s : string) : bool :=
  match s with
  | EmptyString => false
  | String b s' => Ascii.eqb b a || contains a s'
  end.

Definition head_char (s : string) : option ascii :=
  match s with
  | EmptyString => None
  | String a _ => Some a
  end.

Fixpoint last_char (s : string) : option ascii :=
  match s with
  | EmptyString => None
  | String a EmptyString => Some a
  | String _ s' => last_char s'
  end.

(** The text [t] can follow the line [l] in a file without changing where
    [l] ends: after a line feed anything, after a lone carriage return
    anything but a line feed, after an unfinished line nothing. *)
Definition follows (l t : string) : Prop :=
  match last_char l with
  | None => False
  | Some a =>
      if Ascii.eqb a LF then True
      else if Ascii.eqb a CR then head_char t <> Some LF
      else t = ""
  end.

(** ** Updating the constant in [__init__.py] *)

Definition DQUOTE : ascii := "034"%char.

(** [\s*]. *)
Definition spaces : Re.regex := Re.Star true (Re.One Re.Space).

(** [version_pattern]: [VERSION:\s*Final\[str\]\s*=\s*".*?"\s*\n?]. *)
Definition version_pattern : Re.regex :=
  Re.Cat (Re.Lit "VERSION:")
 (Re.Cat spaces
 (Re.Cat (Re.Lit "Final[str]")
 (Re.Cat spaces
 (Re.Cat (Re.One (Re.Chr "="))
 (Re.Cat spaces
 (Re.Cat (Re.One (Re.Chr DQUOTE))
 (Re.Cat (Re.Star false (Re.One Re.Dot))
 (Re.Cat (Re.One (Re.Chr DQUOTE))
 (Re.Cat spaces
         (Re.Opt (Re.One (Re.Chr LF)))))))))))).

(** The line written in place of the constant:
    [f'VERSION: Final[str] = "{bumped_version}"\n']. *)
Definition assignment_line (bumped_version : string) : string :=
  "VERSION: Final[str] = " +:+ String DQUOTE (bumped_version +:+ String DQUOTE (String LF "")).

(** The [for] loop of [update_init_version]; [i] numbers the lines read so
    far, [replaced] is the flag of the source. *)
Fixpoint copy_lines (E : environment) (tmp bumped_version : string) (i : nat)
    (replaced : bool) (src : list string) : io unit :=
  _ ← may_fail (read_error (errors E) i);
  match src with
  | [] => mret tt
  | line :: rest =>
      let contains_version := Re.fullmatch version_pattern line in
      if negb replaced && bool_decide (is_Some contains_version) then
        _ ← file_write E tmp i (assignment_line bumped_version);
        copy_lines E tmp bumped_version (S i) true rest
      else
        _ ← file_write E tmp i line;
        copy_lines E tmp bumped_version (S i) replaced rest
  end.

(** [pathlib.Path(__file__)]. *)
Definition init_path (E : environment) : string := module_dir E +:+ "/__init__.py".

(** The suite of the [try] of [update_init_version]. *)
Definition init_try_block (E : environment) (tmp_name bumped_version : string) : io unit :=
  _ ← may_fail (fdopen_error (errors E));
  text ← open_read E (init_path E);
  _ ← copy_lines E tmp_name bumped_version 0 false (lines text);
  _ ← may_fail (close_error (errors E));
  os_replace E tmp_name (init_path E).

(** [update_init_version]. *)
Definition update_init_version (E : environment) (bumped_version : string) : io unit :=
  tmp_name ← mkstemp E "__init__." ".tmp" (module_dir E);
  try_except
    (init_try_block E tmp_name bumped_version)
    (fun _ =>
       _ ← try_except (os_remove E tmp_name) (fun _ => mret tt);
       lift (report_error_and_exit "failed to update VERSION constant in __init__.py")).

(** ** Updating [pyproject.toml] *)

Definition pyproject_path : string := "pyproject.toml".

(** The suite of the [try] of [update_pyproject_version]. *)
Definition pyproject_try_block (E : environment) (tmp_name bumped_version : string)
    : io unit :=
  _ ← may_fail (fdopen_error (errors E));
  text ← open_read E pyproject_path;
  _ ← may_fail (read_error (errors E) 0);
  let content := text in
  let now := utcnow E in
  content ← lift (replace_key_in_section E content "project" "version" bumped_version);
  content ← lift (replace_key_in_section E content "tool.uv" "exclude-newer" now);
  _ ← file_write E tmp_name 0 content;
  _ ← may_fail (close_error (errors E));
  os_replace E tmp_name pyproject_path.

(** [update_pyproject_version]; [pathlib.Path("pyproject.toml").parent] is
    the current directory. *)
Definition update_pyproject_version (E : environment) (bumped_version : string) : io unit :=
  tmp_name ← mkstemp E "pyproject." ".tmp" ".";
  try_except
    (pyproject_try_block E tmp_name bumped_version)
    (fun exc =>
       _ ← try_except (os_remove E tmp_name) (fun _ => mret tt);
       let 'Exception message := exc in
       lift (report_error_and_exit
               ("failed to update pyproject.toml: " +:+ message
                +:+ "; project may be in an inconsistent version state"))).

(** Two file systems that differ at most in the file [name], which the
    second still has when the first has it. *)
Definition same_except (name : string) (w w' : gmap string string) : Prop :=
  (forall p, p <> name -> w' !! p = w !! p) /\
  (is_Some (w !! name) -> is_Some (w' !! name)).

(** No step of the suite of a [try] fails. *)
Definition no_failure (e : os_errors) : Prop :=
  fdopen_error e = None /\ open_error e = None /\
  (forall i, read_error e i = None) /\ (forall i, write_error e i = None) /\
  close_error e = None /\ replace_error e = None.

(** The lines [update_init_version] writes when nothing fails. *)
Fixpoint init_lines (bumped_version : string) (replaced : bool) (src : list string)
    : list string :=
  match src with
  | [] => []
  | line :: rest =>
      if negb replaced && bool_decide (is_Some (Re.fullmatch version_pattern line)) then
        assignment_line bumped_version :: init_lines bumped_version true rest
      else line :: init_lines bumped_version replaced rest
  end.

(** ** The grammar of version texts, as the specification words it

    [\d+\.\d+\.\d+(-dev\d+)?]: three non-empty runs of decimal digits
    separated by dots, then optionally [-dev] and one more run. *)
Fixpoint all_digits (s : string) : bool :=
  match s with
  | EmptyString => true
  | String a s' => is_digit a && all_digits s'
  end.

Definition digits1 (s : string) : Prop := s <> "" /\ all_digits s = true.

Inductive version_grammar : string -> Prop :=
| VRelease a b c :
    digits1 a -> digits1 b -> digits1 c ->
    version_grammar (a +:+ "." +:+ b +:+ "." +:+ c)
| VDev a b c d :
    digits1 a -> digits1 b -> digits1 c -> digits1 d ->
    version_grammar (a +:+ "." +:+ b +:+ "." +:+ c +:+ "-dev" +:+ d).

(** A numeral without a leading zero: [0] itself, or a run of digits that
    starts with [1] to [9]. *)
Definition canonical (s : string) : Prop :=
  digits1 s /\ (s = "0" \/ forall t, s <> String "0" t).

(** A numeral [int()] converts: a non-empty run of digits, not longer than
    the limit lets through. *)
Definition readable (E : environment) (s : string) : Prop :=
  digits1 s /\ exceeds_limit (int_max_str_digits E) (String.length s) = false.

(** The texts of the grammar whose numerals [int()] converts. *)
Inductive readable_version (E : environment) : string -> Prop :=
| RRelease a b c :
    readable E a -> readable E b -> readable E c ->
    readable_version E (a +:+ "." +:+ b +:+ "." +:+ c)
| RDev a b c d :
    readable E a -> readable E b -> readable E c -> readable E d ->
    readable_version E (a +:+ "." +:+ b +:+ "." +:+ c +:+ "-dev" +:+ d).

(** A number [str()] converts: its numeral is within the limit. *)
Definition printable (E : environment) (n : N) : bool :=
  negb (exceeds_limit (int_max_str_digits E) (String.length (decimal n))).

Definition printable_version (E : environment) (p : HeadVersion) : bool :=
  printable E (major p) && printable E (minor p) && printable E (patch p)
  && match dev p with Some d => printable E d | None => true end.

(** The text of a version, as the specification words it: the numerals of
    its numbers, with dots between them and [-dev] before the last. *)
Definition HeadVersion_text (p : HeadVersion) : string :=
  match dev p with
  | None => decimal (major p) +:+ "." +:+ decimal (minor p) +:+ "." +:+ decimal (patch p)
  | Some d =>
      decimal (major p) +:+ "." +:+ decimal (minor p) +:+ "." +:+ decimal (patch p)
      +:+ "-dev" +:+ decimal d
  end.

(** ** A small world for the examples *)

Definition quoted (s : string) : string := String DQUOTE (s +:+ String DQUOTE "").
Definition line (s : string) : string := s +:+ String LF "".

Definition no_errors : os_errors :=
  {| mkstemp_error := None; fdopen_error := None; open_error := None;
     read_error := fun _ => None; write_error := fun _ => None;
     close_error := None; replace_error := None; remove_error := None |}.

(** A manifest and the document tomlkit reads from it. *)
Definition manifest_text (version : string) : string :=
  line "[project]" +:+ line ("name = " +:+ quoted "asf-example")
  +:+ line ("version = " +:+ quoted version).

Definition manifest_document (version : string) : tomlkit.Container :=
  {[ "project" := tomlkit.ITable {[ "name" := tomlkit.IString "asf-example";
                                    "version" := tomlkit.IString version ]} ]}.

(** The document of a manifest after [update_pyproject_version]. *)
Definition updated_document (version now : string) : tomlkit.Container :=
  {[ "project" := tomlkit.ITable {[ "name" := tomlkit.IString "asf-example";
                                    "version" := tomlkit.IString version ]};
     "tool" := tomlkit.ITable
                 {[ "uv" := tomlkit.ITable {[ "exclude-newer" := tomlkit.IString now ]} ]} ]}.

(** UTF-8 on bytes below 128; the examples use no other byte. *)
Definition decode_ascii (bytes : list Byte.byte) : exception + string :=
  if forallb (fun b => (Byte.to_N b <? 128)%N) bytes
  then inr (string_of_list_byte bytes)
  else inl (Exception "'utf-8' codec can't decode byte").

(** tomlkit on the manifests of the examples: the documents it reads from
    them, and the texts it writes for the documents the updates build. *)
Definition example_parse (text : string) : exception + tomlkit.Container :=
  if String.eqb text (manifest_text "1.2.3-dev5") then inr (manifest_document "1.2.3-dev5")
  else if String.eqb text (manifest_text "1.2.3") then inr (manifest_document "1.2.3")
  else if String.eqb text (manifest_text "1.2.4") then inr (manifest_document "1.2.4")
  else if String.eqb text (manifest_text "0.0.0") then inr (manifest_document "0.0.0")
  else inl (Exception "Invalid TOML").

Definition example_dumps (doc : tomlkit.Container) : string :=
  match tomlkit.lookup_path doc ["project"] "version", tomlkit.get doc "tool",
        tomlkit.lookup_path doc ["tool"; "uv"] "exclude-newer" with
  | Some (tomlkit.IString v), None, _ => manifest_text v
  | Some (tomlkit.IString v), Some _, Some (tomlkit.IString t) =>
      manifest_text v +:+ line "" +:+ line "[tool.uv]"
      +:+ line ("exclude-newer = " +:+ quoted t)
  | _, _, _ => ""
  end.

(** The environment of the examples: the interpreter's default limit on
    digits, no I/O failure. *)
Definition example_environment : environment :=
  {| int_max_str_digits := 4300;
     utf8_decode := decode_ascii;
     toml_parse := example_parse;
     toml_dumps := example_dumps;
     utcnow := "2025-01-01T00:00:00Z";
     module_dir := "src/asf/example";
     tmp_random := ["k3x9q2"];
     errors := no_errors |}.

(** A working tree whose last commit holds the manifest [text]. *)
Definition repository_with (text : string) : Repository :=
  {| is_bare := false;
     revparse_single := fun rev =>
       if String.eqb rev "HEAD:pyproject.toml" then inr (Blob (list_byte_of_string text))
       else inl (Exception "KeyError") |}.

(** A working tree whose last commit has no manifest. *)
Definition repository_without_manifest : Repository :=
  {| is_bare := false; revparse_single := fun rev => inl (Exception "KeyError") |}.

(** The text of an [__init__.py] with the constant on its second line, and
    a second line of the same shape further down. *)
Definition init_text (version : string) : string :=
  line "# This is automatically updated"
  +:+ assignment_line version
  +:+ line ""
  +:+ line ("VERSION: Final[str] = " +:+ quoted "shadow").

(** The project directory of the examples. *)
Definition example_files : gmap string string :=
  {[ "src/asf/example/__init__.py" := init_text "0.0.1-dev24";
     "pyproject.toml" := manifest_text "1.2.3-dev5" ]}.

(** The environment of the examples on a full disk: every write fails. *)
Definition full_disk_environment : environment :=
  {| int_max_str_digits := int_max_str_digits example_environment;
     utf8_decode := utf8_decode example_environment;
     toml_parse := toml_parse example_environment;
     toml_dumps := toml_dumps example_environment;
     utcnow := utcnow example_environment;
     module_dir := module_dir example_environment;
     tmp_random := tmp_random example_environment;
     errors :=
       {| mkstemp_error := None; fdopen_error := None; open_error := None;
          read_error := fun _ => None;
          write_error := fun _ => Some (Exception "[Errno 28] No space left on device");
          close_error := None; replace_error := None; remove_error := None |} |}.

(** A committed version whose patch number is the largest the default
    limit lets [int()] read, 4300 nines, and a version text whose major
    number has one digit more than the limit. *)
Fixpoint repeat_char (a : ascii) (n : nat) : string :=
  match n with
  | O => EmptyString
  | S n' => String a (repeat_char a n')
  end.

Definition largest_patch : string := "0.0." +:+ repeat_char "9" 4300.
Definition long_major : string := repeat_char "1" 4301 +:+ ".0.0".

(** The environment of the examples with tomlkit reading the manifest of
    [largest_patch]. *)
Definition largest_patch_environment : environment :=
  {| int_max_str_digits := int_max_str_digits example_environment;
     utf8_decode := utf8_decode example_environment;
     toml_parse := fun text =>
       if String.eqb text (manifest_text largest_patch)
       then inr (manifest_document largest_patch)
       else toml_parse example_environment text;
     toml_dumps := toml_dumps example_environment;
     utcnow := utcnow example_environment;
     module_dir := module_dir example_environment;
     tmp_random := tmp_random example_environment;
     errors := errors example_environment |}.

(** The version texts whose numerals are all canonical. *)
Inductive canonical_version : string -> Prop :=
| CRelease a b c :
    canonical a -> canonical b -> canonical c ->
    canonical_version (a +:+ "." +:+ b +:+ "." +:+ c)
| CDev a b c d :
    canonical a -> canonical b -> canonical c -> canonical d ->
    canonical_version (a +:+ "." +:+ b +:+ "." +:+ c +:+ "-dev" +:+ d).

(** A text stops a run of digits when it is empty or starts with another
    character. *)
Definition stops (x : string) : Prop :=
  match x with
  | EmptyString => True
  | String a _ => is_digit a = false
  end.

(** ** The command line *)

Definition PROJECT : string := "asf-example".

(** The constant the tool rewrites; this is its value in the file read. *)
Definition VERSION : string := "0.0.1-dev24".

(** The [argparse.Namespace] that [cli_argument_parser] produces: three
    [store_true] flags and the text of [--bump-specific], [None] when the
    option is absent. *)
Record Namespace : Type := mkNamespace {
  bump_dev : bool;
  bump_release : bool;
  bump_specific : option string;
  version : bool
}.

(** [bump_mode_from_args]. *)
Definition bump_mode_from_args (args : Namespace) : result (BumpMode * option string) :=
  if bump_release args then Return (RELEASE, None)
  else if bump_dev args then Return (DEV, None)
  else
    match bump_specific args with
    | Some v => Return (SPECIFIC, Some v)
    | None =>
        report_error_and_exit "--bump-dev, --bump-release, or --bump-specific is required"
    end.

(** What a run of the tool meets besides the [environment] of one call:
    the current directory, the name under which the file system knows the
    file a path text denotes, what [pygit2] finds, and the I/O failures of
    each of the three steps that touch files. *)
Record cli_environment : Type := mk_cli_environment {
  base : environment;
  cwd : string;                                    (* pathlib.Path.cwd() *)
  realpath : string -> string;
  discover_repository : string -> option string;   (* pygit2.discover_repository *)
  open_repository : string -> exception + Repository;  (* pygit2.Repository(path) *)
  check_errors : os_errors;
  init_errors : os_errors;
  pyproject_errors : os_errors
}.

(** The environment of one step: the same libraries, the step's failures. *)
Definition at_step (E : environment) (e : os_errors) : environment :=
  {| int_max_str_digits := int_max_str_digits E;
     utf8_decode := utf8_decode E; toml_parse := toml_parse E;
     toml_dumps := toml_dumps E; utcnow := utcnow E; module_dir := module_dir E;
     tmp_random := tmp_random E; errors := e |}.

(** [current_repository]. *)
Definition current_repository (C : cli_environment) (current_path : string)
    : result Repository :=
  match discover_repository C current_path with
  | None => report_error_and_exit "not inside a git repository"
  | Some repository_directory => of_sum (open_repository C repository_directory)
  end.

(** [project_root / "pyproject.toml"] for an absolute directory. *)
Definition joinpath (dir name : string) : string :=
  if String.eqb dir "/" then "/" +:+ name else dir +:+ "/" +:+ name.

(** [data.get("project", {}).get("name")]. *)
Definition project_name (data : tomlkit.Container) : result (option tomlkit.Item) :=
  match tomlkit.get data "project" with
  | None => Return None
  | Some (tomlkit.ITable t) | Some (tomlkit.IInlineTable t)
  | Some (tomlkit.IOutOfOrderTable t) => Return (tomlkit.get t "name")
  | Some _ => Raise (Exception "object has no attribute 'get'")
  end.

(** [name != project_name]: only a string item equal to the name is not
    different from it. *)
Definition name_differs (name : option tomlkit.Item) (expected : string) : bool :=
  match name with
  | Some (tomlkit.IString s) => negb (String.eqb s expected)
  | _ => true
  end.

(** [project_root_or_exit]; [path] is the name of
    [project_root / "pyproject.toml"] in the file system. *)
Definition project_root_or_exit (E : environment) (path project_name_ : string) : io unit :=
  fun w =>
    match w !! path with
    | None =>
        (report_error_and_exit
           ("must run from project root with pyproject.toml for " +:+ project_name_), w)
    | Some _ =>
        (text ← open_read E path;
         _ ← may_fail (read_error (errors E) 0);
         data ← lift (of_sum (toml_parse E text));
         name ← lift (project_name data);
         if name_differs name project_name_ then
           lift (report_error_and_exit
                   ("pyproject.toml does not belong to '" +:+ project_name_ +:+ "'"))
         else mret tt) w
    end.

(** [run_using_args]: what it prints on standard output and the code it
    returns. *)
Definition run_using_args (C : cli_environment) (args : Namespace) : io (string * Z) :=
  if version args then mret (VERSION, 0%Z)
  else
    let current_path := cwd C in
    _ ← project_root_or_exit (at_step (base C) (check_errors C))
          (realpath C (joinpath current_path "pyproject.toml")) PROJECT;
    repository ← lift (current_repository C current_path);
    ms ← lift (bump_mode_from_args args);
    hb ← lift (calculate_bumped_version (base C) repository ms.1 ms.2);
    _ ← update_init_version (at_step (base C) (init_errors C)) hb.2;
    _ ← update_pyproject_version (at_step (base C) (pyproject_errors C)) hb.2;
    head_text ← lift (HeadVersion_str (base C) hb.1);
    mret (head_text +:+ " -> " +:+ hb.2, 0%Z).

(** The table the loop of [replace_key_in_section] goes into under [part]:
    the table found there, or a new, empty one. *)
Definition table_at (c : tomlkit.Container) (part : string) : tomlkit.Container :=
  match tomlkit.get c part with
  | Some (tomlkit.ITable inner) => inner
  | _ => ∅
  end.

(** A run of the examples: the project of [example_files], seen from its
    root, in a working tree whose last commit holds version 1.2.3. *)
Definition example_cli : cli_environment :=
  {| base := example_environment;
     cwd := "/work/asf-example";
     realpath := fun p =>
       if String.eqb p "/work/asf-example/pyproject.toml" then "pyproject.toml" else p;
     discover_repository := fun _ => Some "/work/asf-example/.git/";
     open_repository := fun _ => inr (repository_with (manifest_text "1.2.3"));
     check_errors := no_errors;
     init_errors := no_errors;
     pyproject_errors := no_errors |}.

(** The same run on a disk that fills up once the constant is rewritten:
    every write of the manifest update fails. *)
Definition full_disk_cli : cli_environment :=
  {| base := base example_cli;
     cwd := cwd example_cli;
     realpath := realpath example_cli;
     discover_repository := discover_repository example_cli;
     open_repository := open_repository example_cli;
     check_errors := no_errors;
     init_errors := no_errors;
     pyproject_errors := errors full_disk_environment |}.

(** The arguments of [--bump-release]. *)
Definition release_args : Namespace :=
  {| bump_dev := false; bump_release := true; bump_specific := None; version := false |}.

(** * Facts *)

(** ** Text *)

Lemma app_cons a s t : String a s +:+ t = String a (s +:+ t).
Proof. reflexivity. Qed.

Lemma app_empty_l s : "" +:+ s = s.
Proof. reflexivity. Qed.

Lemma app_empty_r s : s +:+ "" = s.
Proof. induction s as [|a s IH]; [done|]. by rewrite app_cons, IH. Qed.

Lemma app_assoc' s t u : (s +:+ t) +:+ u = s +:+ (t +:+ u).
Proof. induction s as [|a s IH]; [done|]. by rewrite !app_cons, IH. Qed.

Lemma length_app' s t : String.length (s +:+ t) = String.length s + String.length t.
Proof. induction s as [|a s IH]; [done|]. rewrite app_cons. simpl. by rewrite IH. Qed.

Lemma app_eq_empty s t : s +:+ t = "" -> s = "" /\ t = "".
Proof. destruct s; [done|]. by rewrite app_cons. Qed.

Lemma substring_prefix s t : String.substring 0 (String.length s) (s +:+ t) = s.
Proof.
  induction s as [|a s IH]; simpl.
  - by destruct t.
  - f_equal. apply IH.
Qed.

Module ReFacts.
Import Re.

Lemma consumed_app s1 s2 : consumed (s1 +:+ s2) s2 = s1.
Proof.
  unfold consumed. rewrite length_app'.
  replace (String.length s1 + String.length s2 - String.length s2)
    with (String.length s1) by lia.
  apply substring_prefix.
Qed.

Lemma orelse_Some a b c :
  orelse a b = Some c -> a = Some c \/ (a = None /\ b = Some c).
Proof. destruct a; naive_solver. Qed.

Lemma orelse_is_Some a b : is_Some a \/ is_Some b -> is_Some (orelse a b).
Proof. destruct a; simpl; [eauto|]. intros [[? [=]]|?]; done. Qed.

(** *** The matcher finds only what the pattern denotes *)

Section sound.
Context (g : bool) (r : regex) (k : cont).
Hypothesis body_sound : forall s c k' c',
  run r s c k' = Some c' ->
  exists s1 s2 c1, s = s1 +:+ s2 /\ Matches r s1 c c1 /\ k' s2 c1 = Some c'.

Lemma star_loop_sound n : forall s c c',
  star_loop g (run r) k n s c = Some c' ->
  exists s1 s2 c1, s = s1 +:+ s2 /\ Matches (Star g r) s1 c c1 /\ k s2 c1 = Some c'.
Proof using body_sound.
  induction n as [|n IH]; intros s c c' H.
  - exists "", s, c. split; [done|]. split; [constructor|].
    simpl in H. destruct g; simpl in H; [done|].
    apply orelse_Some in H as [?|[_ [=]]]; done.
  - assert (Hstop : k s c = Some c' ->
      exists s1 s2 c1, s = s1 +:+ s2 /\ Matches (Star g r) s1 c c1 /\ k s2 c1 = Some c').
    { intros. exists "", s, c. split; [done|]. split; [constructor|done]. }
    assert (Hmore :
      run r s c (fun s' c' =>
        if (String.length s' <? String.length s)%nat
        then star_loop g (run r) k n s' c' else None) = Some c' ->
      exists s1 s2 c1, s = s1 +:+ s2 /\ Matches (Star g r) s1 c c1 /\ k s2 c1 = Some c').
    { intros Hb. apply body_sound in Hb as (s1 & s2 & c1 & -> & Hm & Hk).
      destruct (Nat.ltb_spec (String.length s2) (String.length (s1 +:+ s2)))
        as [Hlt|]; [|done].
      apply IH in Hk as (s3 & s4 & c2 & -> & Hm' & Hk).
      exists (s1 +:+ s3), s4, c2. split; [by rewrite app_assoc'|]. split; [|done].
      apply MStarS with c1; [|done..].
      intros ->. rewrite app_empty_l in Hlt. lia. }
    simpl in H. destruct g; apply orelse_Some in H as [?|[_ ?]]; auto.
Qed.
End sound.

Lemma run_sound r : forall s c k c',
  run r s c k = Some c' ->
  exists s1 s2 c1, s = s1 +:+ s2 /\ Matches r s1 c c1 /\ k s2 c1 = Some c'.
Proof.
  induction r as [|cl|r1 IH1 r2 IH2|r1 IH1 r2 IH2|g r IH|n r IH]; intros s c k c' H; simpl in H.
  - exists "", s, c. split; [done|]. split; [constructor|done].
  - destruct s as [|a s]; [done|].
    destruct (class_mem cl a) eqn:Hcl; [|done].
    exists (String a ""), s, c. split; [done|]. split; [by constructor|done].
  - apply IH1 in H as (s1 & s2 & c1 & -> & Hm1 & H).
    apply IH2 in H as (s3 & s4 & c2 & -> & Hm2 & H).
    exists (s1 +:+ s3), s4, c2. split; [by rewrite app_assoc'|].
    split; [by econstructor|done].
  - apply orelse_Some in H as [H|[_ H]].
    + apply IH1 in H as (s1 & s2 & c1 & -> & Hm & H).
      exists s1, s2, c1. split; [done|]. split; [by apply MAltL|done].
    + apply IH2 in H as (s1 & s2 & c1 & -> & Hm & H).
      exists s1, s2, c1. split; [done|]. split; [by apply MAltR|done].
  - by apply star_loop_sound in H.
  - apply IH in H as (s1 & s2 & c1 & -> & Hm & H).
    rewrite consumed_app in H.
    exists s1, s2, (<[n := s1]> c1). split; [done|]. split; [by constructor|done].
Qed.

Lemma fullmatch_sound r s m : fullmatch r s = Some m -> Matches r s ∅ m.
Proof.
  intros H. apply run_sound in H as (s1 & s2 & c1 & -> & Hm & H).
  destruct s2; [|done]. injection H as ->. by rewrite app_empty_r.
Qed.

(** *** The matcher finds a match whenever the pattern denotes one *)

Section complete.
Context (g : bool) (r : regex) (k : cont).
Hypothesis body_complete : forall s1 c c1,
  Matches r s1 c c1 ->
  forall s2 k', is_Some (k' s2 c1) -> is_Some (run r (s1 +:+ s2) c k').

Lemma star_loop_complete s1 c c1 :
  Matches (Star g r) s1 c c1 ->
  forall s2 n, String.length (s1 +:+ s2) <= n -> is_Some (k s2 c1) ->
  is_Some (star_loop g (run r) k n (s1 +:+ s2) c).
Proof using body_complete.
  intros H. remember (Star g r) as r0 eqn:Hr0.
  induction H as [| | | | |g' r' c|g' r' s1 s3 c c1 c2 Hne Hm _ Hs IH|];
    try discriminate; injection Hr0 as -> ->; intros s2 n Hn Hk.
  - rewrite app_empty_l.
    destruct n; simpl; destruct g; simpl;
      first [done | apply orelse_is_Some; auto].
  - destruct n as [|n].
    { destruct s1; [done|]. rewrite !app_cons in Hn. simpl in Hn. lia. }
    assert (is_Some (run r ((s1 +:+ s3) +:+ s2) c (fun s' c' =>
        if (String.length s' <? String.length ((s1 +:+ s3) +:+ s2))%nat
        then star_loop g (run r) k n s' c' else None))) as Hmore.
    { rewrite app_assoc'. apply body_complete with c1; [done|].
      assert (String.length s1 <> 0) by (by destruct s1).
      rewrite !length_app' in Hn.
      destruct (Nat.ltb_spec (String.length (s3 +:+ s2))
                  (String.length (s1 +:+ s3 +:+ s2))) as [_|Hge].
      - apply IH; [done| |done]. rewrite length_app'. lia.
      - rewrite !length_app' in Hge. lia. }
    simpl. destruct g; apply orelse_is_Some; auto.
Qed.
End complete.

Lemma run_complete r : forall s1 c c1,
  Matches r s1 c c1 ->
  forall s2 k, is_Some (k s2 c1) -> is_Some (run r (s1 +:+ s2) c k).
Proof.
  induction r as [|cl|r1 IH1 r2 IH2|r1 IH1 r2 IH2|g r IH|n r IH];
    intros s1 c c1 H.
  - inversion H; subst. intros. by rewrite app_empty_l.
  - inversion H as [|? a ? Hcl| | | | | |]; subst. intros s2 k Hk.
    rewrite app_cons, app_empty_l. simpl. by rewrite Hcl.
  - inversion H; subst. intros s2' k Hk. simpl. rewrite app_assoc'.
    eapply IH1; [done|]. by eapply IH2.
  - inversion H; subst; intros s2 k Hk; simpl; apply orelse_is_Some.
    + left. by eapply IH1.
    + right. by eapply IH2.
  - intros s2 k Hk. simpl. by eapply star_loop_complete.
  - inversion H; subst. intros s2 k Hk. simpl.
    eapply IH; [done|]. by rewrite consumed_app.
Qed.

Lemma fullmatch_complete r s m : Matches r s ∅ m -> is_Some (fullmatch r s).
Proof.
  intros H. unfold fullmatch. rewrite <- (app_empty_r s).
  by eapply run_complete.
Qed.

Lemma fullmatch_None r s : fullmatch r s = None -> forall m, ~ Matches r s ∅ m.
Proof. intros H m Hm. apply fullmatch_complete in Hm as [? ?]. congruence. Qed.

(** *** What the shapes used by the program denote *)

Lemma Matches_Eps s c c' : Matches Eps s c c' <-> s = "" /\ c' = c.
Proof. split; [by inversion 1|]. intros [-> ->]. constructor. Qed.

Lemma Matches_One cl s c c' :
  Matches (One cl) s c c' <-> exists a, s = String a "" /\ class_mem cl a = true /\ c' = c.
Proof.
  split.
  - inversion 1; subst. eauto.
  - intros (a & -> & ? & ->). by constructor.
Qed.

Lemma Matches_Cat r1 r2 s c c2 :
  Matches (Cat r1 r2) s c c2 <->
  exists s1 s2 c1, s = s1 +:+ s2 /\ Matches r1 s1 c c1 /\ Matches r2 s2 c1 c2.
Proof.
  split.
  - inversion 1; subst. eauto 10.
  - intros (s1 & s2 & c1 & -> & ? & ?). by econstructor.
Qed.

Lemma Matches_Alt r1 r2 s c c' :
  Matches (Alt r1 r2) s c c' <-> Matches r1 s c c' \/ Matches r2 s c c'.
Proof.
  split.
  - inversion 1; subst; auto.
  - intros [?|?]; [by apply MAltL|by apply MAltR].
Qed.

Lemma Matches_Group n r s c c' :
  Matches (Group n r) s c c' <-> exists c1, Matches r s c c1 /\ c' = <[n := s]> c1.
Proof.
  split.
  - inversion 1; subst. eauto.
  - intros (c1 & ? & ->). by constructor.
Qed.

Lemma Matches_Lit t s c c' : Matches (Lit t) s c c' <-> s = t /\ c' = c.
Proof.
  revert s c c'. induction t as [|a t IH]; intros s c c'; simpl.
  - apply Matches_Eps.
  - rewrite Matches_Cat. split.
    + intros (s1 & s2 & c1 & -> & H1 & H2).
      apply Matches_One in H1 as (b & -> & Hb & ->).
      apply IH in H2 as [-> ->]. simpl in Hb.
      apply Ascii.eqb_eq in Hb as ->. done.
    + intros [-> ->]. exists (String a ""), t, c. split; [done|].
      split; [|by apply IH]. apply Matches_One. exists a.
      simpl. by rewrite Ascii.eqb_refl.
Qed.

Lemma Matches_Star_One g cl s c c' :
  Matches (Star g (One cl)) s c c' <-> all_in cl s = true /\ c' = c.
Proof.
  split.
  - intros H. remember (Star g (One cl)) as r0 eqn:Hr0.
    induction H as [| | | | |? ? ?|? ? s1 s2 c c1 c2 _ Hm _ _ IH|];
      try discriminate; injection Hr0 as -> ->; [done|].
    apply Matches_One in Hm as (a & -> & Ha & ->).
    destruct (IH eq_refl) as [Hs ->]. split; [|done].
    rewrite app_cons. simpl. by rewrite Ha.
  - intros [H ->]. induction s as [|a s IH]; [constructor|].
    simpl in H. apply andb_true_iff in H as [Ha Hs].
    change (String a s) with (String a "" +:+ s).
    apply MStarS with c; [done| |by apply IH]. by constructor.
Qed.

Lemma Matches_Plus_One cl s c c' :
  Matches (Plus (One cl)) s c c' <-> (s <> "" /\ all_in cl s = true) /\ c' = c.
Proof.
  unfold Plus. rewrite Matches_Cat. split.
  - intros (s1 & s2 & c1 & -> & H1 & H2).
    apply Matches_One in H1 as (a & -> & Ha & ->).
    apply Matches_Star_One in H2 as [Hs ->].
    rewrite app_cons. simpl. by rewrite Ha.
  - intros [[Hne H] ->]. destruct s as [|a s]; [done|].
    simpl in H. apply andb_true_iff in H as [Ha Hs].
    exists (String a ""), s, c. split; [done|]. split.
    + by constructor.
    + by apply Matches_Star_One.
Qed.

End ReFacts.

(** ** Version texts *)

Section version_facts.
Import Re ReFacts.

Lemma all_in_Digit s : all_in Digit s = all_digits s.
Proof. induction s as [|a s IH]; [done|]. simpl. by rewrite IH. Qed.

Lemma Matches_digits s c c' :
  Matches (Plus (One Digit)) s c c' <-> digits1 s /\ c' = c.
Proof. rewrite Matches_Plus_One. unfold digits1. by rewrite all_in_Digit. Qed.

Lemma digits_split a a' x x' :
  all_digits a = true -> all_digits a' = true -> stops x -> stops x' ->
  a +:+ x = a' +:+ x' -> a = a' /\ x = x'.
Proof.
  revert a'. induction a as [|h a IH]; intros [|h' a'] Ha Ha' Hx Hx' Heq;
    rewrite ?app_cons, ?app_empty_l in Heq; simpl in *.
  - done.
  - subst x. simpl in Hx. apply andb_true_iff in Ha' as [? _]. congruence.
  - subst x'. simpl in Hx'. apply andb_true_iff in Ha as [? _]. congruence.
  - injection Heq as -> Heq.
    apply andb_true_iff in Ha as [_ Ha]. apply andb_true_iff in Ha' as [_ Ha'].
    destruct (IH a' Ha Ha' Hx Hx' Heq) as [-> ->]. done.
Qed.

Lemma Matches_version_re s m :
  Matches version_re s ∅ m <->
  (exists a b c, digits1 a /\ digits1 b /\ digits1 c /\
     s = a +:+ "." +:+ b +:+ "." +:+ c /\
     m = <[3 := c]> (<[2 := b]> (<[1 := a]> ∅))) \/
  (exists a b c d, digits1 a /\ digits1 b /\ digits1 c /\ digits1 d /\
     s = a +:+ "." +:+ b +:+ "." +:+ c +:+ "-dev" +:+ d /\
     m = <[4 := d]> (<[3 := c]> (<[2 := b]> (<[1 := a]> ∅)))).
Proof.
  unfold version_re, Opt. split.
  - intros H.
    apply Matches_Cat in H as (a & s1 & c1 & -> & Ha & H).
    apply Matches_Group in Ha as (? & [Ha ->]%Matches_digits & ->).
    apply Matches_Cat in H as (? & s2 & ? & -> & (? & -> & [= <-]%Ascii.eqb_eq & ->)%Matches_One & H).
    apply Matches_Cat in H as (b & s3 & c3 & -> & Hb & H).
    apply Matches_Group in Hb as (? & [Hb ->]%Matches_digits & ->).
    apply Matches_Cat in H as (? & s4 & ? & -> & (? & -> & [= <-]%Ascii.eqb_eq & ->)%Matches_One & H).
    apply Matches_Cat in H as (c & s5 & c5 & -> & Hc & H).
    apply Matches_Group in Hc as (? & [Hc ->]%Matches_digits & ->).
    apply Matches_Alt in H as [H|[-> ->]%Matches_Eps].
    + right.
      apply Matches_Cat in H as (? & d & ? & -> & [-> ->]%Matches_Lit & Hd).
      apply Matches_Group in Hd as (? & [Hd ->]%Matches_digits & ->).
      by exists a, b, c, d.
    + left. rewrite app_empty_r. by exists a, b, c.
  - intros [(a & b & c & Ha & Hb & Hc & -> & ->)|(a & b & c & d & Ha & Hb & Hc & Hd & -> & ->)].
    + apply Matches_Cat. exists a, ("." +:+ b +:+ "." +:+ c), (<[1 := a]> ∅).
      split; [done|]. split; [apply Matches_Group; eexists; by rewrite Matches_digits|].
      apply Matches_Cat. exists ".", (b +:+ "." +:+ c), (<[1 := a]> ∅).
      split; [done|]. split; [by apply Matches_One; eexists|].
      apply Matches_Cat. exists b, ("." +:+ c), (<[2 := b]> (<[1 := a]> ∅)).
      split; [done|]. split; [apply Matches_Group; eexists; by rewrite Matches_digits|].
      apply Matches_Cat. exists ".", c, (<[2 := b]> (<[1 := a]> ∅)).
      split; [done|]. split; [by apply Matches_One; eexists|].
      apply Matches_Cat. exists c, "", (<[3 := c]> (<[2 := b]> (<[1 := a]> ∅))).
      split; [by rewrite app_empty_r|].
      split; [apply Matches_Group; eexists; by rewrite Matches_digits|].
      apply Matches_Alt. right. by apply Matches_Eps.
    + apply Matches_Cat. exists a, ("." +:+ b +:+ "." +:+ c +:+ "-dev" +:+ d), (<[1 := a]> ∅).
      split; [done|]. split; [apply Matches_Group; eexists; by rewrite Matches_digits|].
      apply Matches_Cat. exists ".", (b +:+ "." +:+ c +:+ "-dev" +:+ d), (<[1 := a]> ∅).
      split; [done|]. split; [by apply Matches_One; eexists|].
      apply Matches_Cat. exists b, ("." +:+ c +:+ "-dev" +:+ d), (<[2 := b]> (<[1 := a]> ∅)).
      split; [done|]. split; [apply Matches_Group; eexists; by rewrite Matches_digits|].
      apply Matches_Cat. exists ".", (c +:+ "-dev" +:+ d), (<[2 := b]> (<[1 := a]> ∅)).
      split; [done|]. split; [by apply Matches_One; eexists|].
      apply Matches_Cat. exists c, ("-dev" +:+ d), (<[3 := c]> (<[2 := b]> (<[1 := a]> ∅))).
      split; [done|].
      split; [apply Matches_Group; eexists; by rewrite Matches_digits|].
      apply Matches_Alt. left.
      apply Matches_Cat. exists "-dev", d, (<[3 := c]> (<[2 := b]> (<[1 := a]> ∅))).
      split; [done|]. split; [by apply Matches_Lit|].
      apply Matches_Group; eexists; by rewrite Matches_digits.
Qed.

(** [re.fullmatch] accepts exactly the texts of the grammar. *)
Lemma fullmatch_version_grammar s :
  is_Some (fullmatch version_re s) <-> version_grammar s.
Proof.
  split.
  - intros [m Hm]. apply fullmatch_sound, Matches_version_re in Hm
      as [(a & b & c & ? & ? & ? & -> & _)|(a & b & c & d & ? & ? & ? & ? & -> & _)];
      by constructor.
  - intros [a b c Ha Hb Hc|a b c d Ha Hb Hc Hd].
    + eapply fullmatch_complete, Matches_version_re. left. by exists a, b, c.
    + eapply fullmatch_complete, Matches_version_re. right. by exists a, b, c, d.
Qed.

Lemma stops_dot x : stops ("." +:+ x).
Proof. by vm_compute. Qed.

Lemma stops_dev x : stops ("-dev" +:+ x).
Proof. by vm_compute. Qed.

(** The groups of a match are the runs of digits of the text. *)
Lemma fullmatch_release a b c :
  digits1 a -> digits1 b -> digits1 c ->
  fullmatch version_re (a +:+ "." +:+ b +:+ "." +:+ c)
  = Some (<[3 := c]> (<[2 := b]> (<[1 := a]> ∅))).
Proof.
  intros Ha Hb Hc.
  destruct (proj2 (fullmatch_version_grammar _) (VRelease a b c Ha Hb Hc)) as [m Hm].
  rewrite Hm. f_equal.
  apply fullmatch_sound, Matches_version_re in Hm
    as [(a' & b' & c' & Ha' & Hb' & Hc' & Heq & ->)
       |(a' & b' & c' & d' & Ha' & Hb' & Hc' & Hd' & Heq & ->)].
  - apply digits_split in Heq as [-> Heq];
      [|apply Ha|apply Ha'|apply stops_dot..].
    apply (inj (String.append ".")) in Heq.
    apply digits_split in Heq as [-> Heq];
      [|apply Hb|apply Hb'|apply stops_dot..].
    by apply (inj (String.append ".")) in Heq as ->.
  - apply digits_split in Heq as [-> Heq];
      [|apply Ha|apply Ha'|apply stops_dot..].
    apply (inj (String.append ".")) in Heq.
    apply digits_split in Heq as [-> Heq];
      [|apply Hb|apply Hb'|apply stops_dot..].
    apply (inj (String.append ".")) in Heq.
    assert (c +:+ "" = c' +:+ "-dev" +:+ d') as Heq' by (by rewrite app_empty_r).
    apply digits_split in Heq' as [_ [=]];
      [apply Hc|apply Hc'|done|apply stops_dev].
Qed.

Lemma fullmatch_dev a b c d :
  digits1 a -> digits1 b -> digits1 c -> digits1 d ->
  fullmatch version_re (a +:+ "." +:+ b +:+ "." +:+ c +:+ "-dev" +:+ d)
  = Some (<[4 := d]> (<[3 := c]> (<[2 := b]> (<[1 := a]> ∅)))).
Proof.
  intros Ha Hb Hc Hd.
  destruct (proj2 (fullmatch_version_grammar _) (VDev a b c d Ha Hb Hc Hd)) as [m Hm].
  rewrite Hm. f_equal.
  apply fullmatch_sound, Matches_version_re in Hm
    as [(a' & b' & c' & Ha' & Hb' & Hc' & Heq & ->)
       |(a' & b' & c' & d' & Ha' & Hb' & Hc' & Hd' & Heq & ->)].
  - apply digits_split in Heq as [-> Heq];
      [|apply Ha|apply Ha'|apply stops_dot..].
    apply (inj (String.append ".")) in Heq.
    apply digits_split in Heq as [-> Heq];
      [|apply Hb|apply Hb'|apply stops_dot..].
    apply (inj (String.append ".")) in Heq.
    assert (c +:+ "-dev" +:+ d = c' +:+ "") as Heq' by (by rewrite app_empty_r).
    apply digits_split in Heq' as [_ [=]];
      [apply Hc|apply Hc'|apply stops_dev|done].
  - apply digits_split in Heq as [-> Heq];
      [|apply Ha|apply Ha'|apply stops_dot..].
    apply (inj (String.append ".")) in Heq.
    apply digits_split in Heq as [-> Heq];
      [|apply Hb|apply Hb'|apply stops_dot..].
    apply (inj (String.append ".")) in Heq.
    apply digits_split in Heq as [-> Heq];
      [|apply Hc|apply Hc'|apply stops_dev..].
    by apply (inj (String.append "-dev")) in Heq as ->.
Qed.

End version_facts.

(** ** Numerals *)

Lemma is_digit_cases a :
  is_digit a = true ->
  a ∈ ["0"; "1"; "2"; "3"; "4"; "5"; "6"; "7"; "8"; "9"]%char.
Proof.
  destruct a as [[] [] [] [] [] [] [] []]; vm_compute; intros H;
    first [discriminate H | set_solver].
Qed.

Lemma uint_of_char_digit a d :
  is_digit a = true -> exists d', uint_of_char a (Some d) = Some d'.
Proof.
  intros H%is_digit_cases.
  repeat (apply elem_of_cons in H as [->|H]; [by eexists|]).
  by apply elem_of_nil in H.
Qed.

Lemma uint_of_string_digits s :
  all_digits s = true -> exists d, NilEmpty.uint_of_string s = Some d.
Proof.
  induction s as [|a s IH]; simpl; [by eexists|].
  intros [Ha Hs]%andb_true_iff. destruct (IH Hs) as [d ->].
  by apply uint_of_char_digit.
Qed.

Lemma uint_of_char_nb_digits a d d' :
  uint_of_char a (Some d) = Some d' -> nb_digits d' = S (nb_digits d).
Proof.
  unfold uint_of_char.
  destruct a as [[] [] [] [] [] [] [] []]; simpl; intros [= <-]; done.
Qed.

Lemma uint_of_string_nb_digits s d :
  NilEmpty.uint_of_string s = Some d -> nb_digits d = String.length s.
Proof.
  revert d. induction s as [|a s IH]; intros d; simpl; [by intros [= <-]|].
  destruct (NilEmpty.uint_of_string s) as [d0|] eqn:Hs.
  - intros Hd%uint_of_char_nb_digits. by rewrite Hd, (IH d0).
  - by destruct a as [[] [] [] [] [] [] [] []].
Qed.

Lemma string_of_uint_length d :
  String.length (NilEmpty.string_of_uint d) = nb_digits d.
Proof. induction d; simpl; by rewrite ?IHd. Qed.

Lemma all_digits_string_of_uint d : all_digits (NilEmpty.string_of_uint d) = true.
Proof. induction d; simpl; by rewrite ?IHd. Qed.

Lemma to_uint_nonnil n : N.to_uint n <> Nil.
Proof. rewrite <- (Unsigned.of_to n), Unsigned.to_of. apply DecimalFacts.unorm_nonnil. Qed.

Lemma decimal_digits n : digits1 (decimal n).
Proof.
  unfold decimal, NilZero.string_of_uint. pose proof (to_uint_nonnil n) as Hn.
  destruct (N.to_uint n) as [|d|d|d|d|d|d|d|d|d|d] eqn:Hd; [done|..];
    (split; [done|]); apply all_digits_string_of_uint.
Qed.

(** The numeral of the value of a digit string is not longer than the
    string: leading zeros are dropped. *)
Lemma decimal_of_uint_length s d :
  s <> "" -> NilZero.uint_of_string s = Some d ->
  String.length (decimal (N.of_uint d)) <= String.length s.
Proof.
  intros Hne Hd. unfold decimal. rewrite Unsigned.to_of.
  assert (nb_digits d = String.length s) as Hlen.
  { destruct s as [|a s]; [done|]. by apply uint_of_string_nb_digits. }
  assert (d <> Nil) as Hnil.
  { intros ->. destruct s; [done|]. simpl in Hlen. discriminate Hlen. }
  pose proof (DecimalFacts.nb_digits_unorm d Hnil) as Hle.
  pose proof (DecimalFacts.unorm_nonnil d) as Hu.
  unfold NilZero.string_of_uint.
  destruct (unorm d) eqn:Hud; [done|..];
    rewrite string_of_uint_length; lia.
Qed.

(** ** The limit on digits *)

Lemma exceeds_limit_false cap digits :
  exceeds_limit cap digits = false <->
  digits <= str_digits_check_threshold \/ cap = 0 \/ digits <= cap.
Proof.
  unfold exceeds_limit.
  rewrite !andb_false_iff, !Nat.ltb_ge. lia.
Qed.

Lemma exceeds_limit_mono cap m n :
  m <= n -> exceeds_limit cap n = false -> exceeds_limit cap m = false.
Proof. rewrite !exceeds_limit_false. lia. Qed.

Lemma exceeds_limit_none digits : exceeds_limit 0 digits = false.
Proof. apply exceeds_limit_false. lia. Qed.

Lemma py_int_digits E s :
  digits1 s ->
  exists d, NilZero.uint_of_string s = Some d /\
    (exceeds_limit (int_max_str_digits E) (String.length s) = false ->
     py_int E s = Return (N.of_uint d)).
Proof.
  intros [Hne Hs]. unfold py_int, NilZero.uint_of_string.
  destruct s as [|a s]; [done|].
  destruct (uint_of_string_digits _ Hs) as [d ->]. exists d. split; [done|].
  by intros ->.
Qed.

(** [int()] converts the readable numerals, to numbers [str()] converts. *)
Lemma py_int_readable E s :
  readable E s -> exists n, py_int E s = Return n /\ printable E n = true.
Proof.
  intros [Hs Hlim]. destruct (py_int_digits E s Hs) as (d & Hd & Hint).
  exists (N.of_uint d). split; [by apply Hint|].
  unfold printable. apply negb_true_iff.
  eapply exceeds_limit_mono; [|exact Hlim].
  apply decimal_of_uint_length; [apply Hs|done].
Qed.

(** On a run of digits over the limit [int()] raises [ValueError]. *)
Lemma py_int_over E s :
  digits1 s -> exceeds_limit (int_max_str_digits E) (String.length s) = true ->
  exists e, py_int E s = Raise e.
Proof.
  intros Hs Hlim. destruct (py_int_digits E s Hs) as (d & Hd & _).
  unfold py_int. rewrite Hd, Hlim. by eexists.
Qed.

Lemma py_int_Return E s n :
  py_int E s = Return n ->
  exceeds_limit (int_max_str_digits E) (String.length s) = false.
Proof.
  unfold py_int. destruct (NilZero.uint_of_string s); [|done].
  by destruct (exceeds_limit _ _).
Qed.

Lemma py_str_printable E n : printable E n = true -> py_str E n = Return (decimal n).
Proof. unfold printable, py_str. by intros ->%negb_true_iff. Qed.

Lemma py_str_not_printable E n :
  printable E n = false -> py_str E n = Raise (str_limit_error E).
Proof. unfold printable, py_str. by intros ->%negb_false_iff. Qed.

Lemma py_str_Return E n s :
  py_str E n = Return s -> s = decimal n /\ printable E n = true.
Proof.
  unfold py_str, printable. destruct (exceeds_limit _ _); [done|].
  by intros [= <-].
Qed.

Lemma py_str_outcome E n :
  py_str E n = if printable E n then Return (decimal n) else Raise (str_limit_error E).
Proof. unfold py_str, printable. by destruct (exceeds_limit _ _). Qed.

(** [str(int(s))] gives a canonical numeral back. *)
Lemma decimal_canonical s d :
  canonical s -> NilZero.uint_of_string s = Some d -> decimal (N.of_uint d) = s.
Proof.
  intros [[Hne Hs] Hz] Hd. unfold decimal. rewrite Unsigned.to_of.
  assert (unorm d = d) as ->; [|by apply NilZero.sus].
  destruct Hz as [->|Hz]; [by injection Hd as <-|].
  destruct s as [|a s]; [done|]. simpl in Hd, Hs.
  apply andb_true_iff in Hs as [Ha _].
  destruct (NilEmpty.uint_of_string s) as [d'|]; [|by destruct a as [[] [] [] [] [] [] [] []]].
  apply is_digit_cases in Ha.
  repeat (apply elem_of_cons in Ha as [->|Ha];
          [first [by destruct (Hz s) | by injection Hd as <-]|]).
  by apply elem_of_nil in Ha.
Qed.

Lemma py_str_int E s :
  canonical s -> readable E s ->
  exists n, py_int E s = Return n /\ py_str E n = Return s.
Proof.
  intros Hc [Hs Hlim]. destruct (py_int_digits E s Hs) as (d & Hd & Hint).
  exists (N.of_uint d). split; [by apply Hint|].
  unfold py_str. by rewrite (decimal_canonical s d Hc Hd), Hlim.
Qed.

Lemma py_int_canonical E s n : canonical s -> py_int E s = Return n -> decimal n = s.
Proof.
  intros Hc Hn. pose proof (py_int_Return E s n Hn) as Hlim.
  destruct (py_str_int E s Hc) as (n' & Hn' & Hs); [split; [apply Hc|done]|].
  rewrite Hn in Hn'. injection Hn' as <-.
  by apply py_str_Return in Hs as [-> _].
Qed.

(** [int(str(n))] is [n]. *)
Lemma py_int_decimal E n : printable E n = true -> py_int E (decimal n) = Return n.
Proof.
  intros Hp%negb_true_iff. unfold py_int, decimal in *.
  rewrite NilZero.usu by apply to_uint_nonnil.
  by rewrite Hp, Unsigned.of_to.
Qed.

Example parse_version_dev E :
  parse_version E "1.2.3-dev5" = Return (mkHeadVersion 1 2 3 (Some 5%N)).
Proof. vm_compute. reflexivity. Qed.

Example parse_version_zeros E : parse_version E "1.02.3" = Return (mkHeadVersion 1 2 3 None).
Proof. vm_compute. reflexivity. Qed.

Example parse_version_short E :
  parse_version E "1.2" = report_error_and_exit "unsupported version format: 1.2".
Proof. vm_compute. reflexivity. Qed.

(** ** [parse_version] and [__str__] *)

Lemma parse_version_release E a b c :
  digits1 a -> digits1 b -> digits1 c ->
  parse_version E (a +:+ "." +:+ b +:+ "." +:+ c)
  = na ← py_int E a; nb ← py_int E b; nc ← py_int E c;
    Return (mkHeadVersion na nb nc None).
Proof.
  intros Ha Hb Hc. unfold parse_version. rewrite fullmatch_release by done.
  unfold int_group, Re.group. simplify_map_eq.
  by destruct (py_int E a), (py_int E b), (py_int E c).
Qed.

Lemma parse_version_dev_suffix E a b c d :
  digits1 a -> digits1 b -> digits1 c -> digits1 d ->
  parse_version E (a +:+ "." +:+ b +:+ "." +:+ c +:+ "-dev" +:+ d)
  = na ← py_int E a; nb ← py_int E b; nc ← py_int E c; nd ← py_int E d;
    Return (mkHeadVersion na nb nc (Some nd)).
Proof.
  intros Ha Hb Hc Hd. unfold parse_version. rewrite fullmatch_dev by done.
  unfold int_group, Re.group. simplify_map_eq.
  by destruct (py_int E a), (py_int E b), (py_int E c), (py_int E d).
Qed.

(** What [int()] does on a run of digits. *)
Lemma py_int_cases E s :
  digits1 s ->
  (readable E s /\ exists n, py_int E s = Return n /\ printable E n = true) \/
  (exists e, py_int E s = Raise e).
Proof.
  intros Hs.
  destruct (exceeds_limit (int_max_str_digits E) (String.length s)) eqn:Hlim.
  - right. by apply py_int_over.
  - left. split; [done|]. by apply py_int_readable.
Qed.

(** On a text of the grammar [parse_version] returns a version that
    [str()] prints, or [int()] raises on a numeral over the limit. *)
Lemma parse_version_grammar E text :
  version_grammar text ->
  (readable_version E text /\
   exists p, parse_version E text = Return p /\ printable_version E p = true) \/
  (exists e, parse_version E text = Raise e).
Proof.
  intros [a b c Ha Hb Hc|a b c d Ha Hb Hc Hd].
  - rewrite parse_version_release by done.
    destruct (py_int_cases E a Ha) as [[Ra (na & -> & Pa)]|(ea & ->)];
      [|right; by eexists].
    destruct (py_int_cases E b Hb) as [[Rb (nb & -> & Pb)]|(eb & ->)];
      [|right; by eexists].
    destruct (py_int_cases E c Hc) as [[Rc (nc & -> & Pc)]|(ec & ->)];
      [|right; by eexists].
    left. split; [by constructor|]. eexists. split; [done|].
    unfold printable_version. simpl. by rewrite Pa, Pb, Pc.
  - rewrite parse_version_dev_suffix by done.
    destruct (py_int_cases E a Ha) as [[Ra (na & -> & Pa)]|(ea & ->)];
      [|right; by eexists].
    destruct (py_int_cases E b Hb) as [[Rb (nb & -> & Pb)]|(eb & ->)];
      [|right; by eexists].
    destruct (py_int_cases E c Hc) as [[Rc (nc & -> & Pc)]|(ec & ->)];
      [|right; by eexists].
    destruct (py_int_cases E d Hd) as [[Rd (nd & -> & Pd)]|(ed & ->)];
      [|right; by eexists].
    left. split; [by constructor|]. eexists. split; [done|].
    unfold printable_version. simpl. by rewrite Pa, Pb, Pc, Pd.
Qed.

Lemma readable_version_grammar E text : readable_version E text -> version_grammar text.
Proof.
  intros [a b c [Ha _] [Hb _] [Hc _]|a b c d [Ha _] [Hb _] [Hc _] [Hd _]];
    by constructor.
Qed.

Lemma parse_version_readable E text :
  readable_version E text ->
  exists p, parse_version E text = Return p /\ printable_version E p = true.
Proof.
  intros [a b c Ra Rb Rc|a b c d Ra Rb Rc Rd].
  - rewrite parse_version_release by (apply Ra || apply Rb || apply Rc).
    destruct (py_int_readable E a Ra) as (na & -> & Pa),
      (py_int_readable E b Rb) as (nb & -> & Pb),
      (py_int_readable E c Rc) as (nc & -> & Pc).
    eexists. split; [done|]. unfold printable_version. simpl. by rewrite Pa, Pb, Pc.
  - rewrite parse_version_dev_suffix by (apply Ra || apply Rb || apply Rc || apply Rd).
    destruct (py_int_readable E a Ra) as (na & -> & Pa),
      (py_int_readable E b Rb) as (nb & -> & Pb),
      (py_int_readable E c Rc) as (nc & -> & Pc),
      (py_int_readable E d Rd) as (nd & -> & Pd).
    eexists. split; [done|]. unfold printable_version. simpl.
    by rewrite Pa, Pb, Pc, Pd.
Qed.

Lemma parse_version_fullmatch E text r :
  parse_version E text = r ->
  (forall code msg, r <> SystemExit code msg) -> version_grammar text.
Proof.
  intros <- Hr. apply fullmatch_version_grammar. unfold parse_version in Hr.
  destruct (Re.fullmatch version_re text); [done|].
  by destruct (Hr 2%Z ("error: unsupported version format: " +:+ text)).
Qed.

(** Whatever [parse_version] returns came from readable numerals, and
    [str()] prints it. *)
Lemma parse_version_Return E text p :
  parse_version E text = Return p ->
  readable_version E text /\ printable_version E p = true.
Proof.
  intros Hp.
  destruct (parse_version_grammar E text) as [[Hr (p' & Hp' & Hpr)]|[e He]].
  - by apply (parse_version_fullmatch E text (Return p)).
  - rewrite Hp in Hp'. by injection Hp' as <-.
  - by rewrite Hp in He.
Qed.

Lemma parse_version_no_grammar E text :
  ~ version_grammar text ->
  parse_version E text = report_error_and_exit ("unsupported version format: " +:+ text).
Proof.
  intros Hg. unfold parse_version.
  destruct (Re.fullmatch version_re text) as [m|] eqn:Hm; [|done].
  destruct Hg. apply fullmatch_version_grammar. by eexists.
Qed.

(** Without a limit every text of the grammar is readable. *)
Lemma readable_version_no_limit E text :
  int_max_str_digits E = 0 -> version_grammar text -> readable_version E text.
Proof.
  intros H0 [a b c Ha Hb Hc|a b c d Ha Hb Hc Hd]; constructor;
    (split; [done|]); rewrite H0; apply exceeds_limit_none.
Qed.

(** C8, as the program has it.  [parse_version] returns a version exactly
    on the texts of the grammar [\d+\.\d+\.\d+(-dev\d+)?] whose numerals
    are within the interpreter's limit on digits; on a text of the grammar
    with a longer numeral [int()] raises [ValueError]; on every text that
    is not of the grammar it reports "unsupported version format" and
    exits, as it does on [1.2], [1.2.3.4], [v1.2.3] and [1.2.3-dev].
    Without a limit the texts read are exactly those of the grammar. *)
Theorem parse_version_accepts_the_readable_grammar (E : environment) (text : string) :
  (readable_version E text <-> exists v, parse_version E text = Return v) /\
  (~ version_grammar text <->
     parse_version E text = report_error_and_exit ("unsupported version format: " +:+ text)) /\
  (version_grammar text /\ ~ readable_version E text <->
     exists e, parse_version E text = Raise e) /\
  (int_max_str_digits E = 0 -> (version_grammar text <-> readable_version E text)) /\
  parse_version E "1.2" = report_error_and_exit "unsupported version format: 1.2" /\
  parse_version E "1.2.3.4" = report_error_and_exit "unsupported version format: 1.2.3.4" /\
  parse_version E "v1.2.3" = report_error_and_exit "unsupported version format: v1.2.3" /\
  parse_version E "1.2.3-dev" = report_error_and_exit "unsupported version format: 1.2.3-dev".
Proof.
  split; [|split; [|split; [|split; [|by vm_compute]]]].
  - split.
    + intros (p & Hp & _)%parse_version_readable. by exists p.
    + intros [v Hv]. by apply parse_version_Return in Hv as [? _].
  - split; [apply parse_version_no_grammar|].
    intros Herr Hg.
    destruct (parse_version_grammar E text Hg) as [[_ (p & Hp & _)]|[e He]];
      rewrite Herr in *; discriminate.
  - split.
    + intros [Hg Hnr].
      by destruct (parse_version_grammar E text Hg) as [[Hr _]|He].
    + intros [e He]. split.
      * by apply (parse_version_fullmatch E text (Raise e)).
      * intros (p & Hp & _)%parse_version_readable. by rewrite He in Hp.
  - intros H0. split; [by apply readable_version_no_limit|apply readable_version_grammar].
Qed.

(** C8, as stated, fails on a numeral of 4301 digits under the default
    limit of 4300: the text is of the grammar, and [parse_version] neither
    returns a version nor reports a malformed version: [int()] raises
    [ValueError]. *)
Lemma parse_version_long_major :
  version_grammar long_major /\
  parse_version example_environment long_major
  = Raise (Exception "Exceeds the limit (4300 digits) for integer string conversion: value has 4301 digits; use sys.set_int_max_str_digits() to increase the limit") /\
  (forall v, parse_version example_environment long_major <> Return v) /\
  parse_version example_environment long_major
  <> report_error_and_exit ("unsupported version format: " +:+ long_major).
Proof.
  assert (parse_version example_environment long_major
          = Raise (Exception "Exceeds the limit (4300 digits) for integer string conversion: value has 4301 digits; use sys.set_int_max_str_digits() to increase the limit"))
    as Hp by (vm_compute; reflexivity).
  split; [|split; [done|split; [intros v|]; by rewrite Hp]].
  apply (VRelease (repeat_char "1" 4301) "0" "0"); by split.
Qed.

Lemma HeadVersion_str_outcome E p :
  HeadVersion_str E p
  = if printable_version E p then Return (HeadVersion_text p) else Raise (str_limit_error E).
Proof.
  unfold HeadVersion_str, printable_version, HeadVersion_text.
  destruct p as [ma mi pa [d|]]; simpl; rewrite !py_str_outcome;
    destruct (printable E ma), (printable E mi), (printable E pa); simpl; try done.
  by destruct (printable E d).
Qed.

Lemma HeadVersion_str_Return E p s :
  HeadVersion_str E p = Return s -> printable_version E p = true /\ s = HeadVersion_text p.
Proof.
  rewrite HeadVersion_str_outcome. destruct (printable_version E p); [|done].
  by intros [= <-].
Qed.

Lemma printable_version_fields E p :
  printable_version E p = true ->
  printable E (major p) = true /\ printable E (minor p) = true /\
  printable E (patch p) = true /\ (forall d, dev p = Some d -> printable E d = true).
Proof.
  unfold printable_version. rewrite !andb_true_iff. intros [[[? ?] ?] Hd].
  repeat (split; [done|]). intros d Hdev. by rewrite Hdev in Hd.
Qed.

(** Reading back what [__str__] printed. *)
Lemma parse_version_HeadVersion_text E p :
  printable_version E p = true -> parse_version E (HeadVersion_text p) = Return p.
Proof.
  intros (Pa & Pb & Pc & Pd)%printable_version_fields.
  destruct p as [ma mi pa [d|]]; unfold HeadVersion_text; simpl in *.
  - rewrite parse_version_dev_suffix by apply decimal_digits.
    by rewrite !py_int_decimal by eauto.
  - rewrite parse_version_release by apply decimal_digits.
    by rewrite !py_int_decimal by eauto.
Qed.

Lemma HeadVersion_text_canonical E v p :
  canonical_version v -> parse_version E v = Return p -> HeadVersion_text p = v.
Proof.
  intros [a b c Ha Hb Hc|a b c d Ha Hb Hc Hd].
  - rewrite parse_version_release by (apply Ha || apply Hb || apply Hc).
    destruct (py_int E a) as [na| |] eqn:Ia; [simpl|done..].
    destruct (py_int E b) as [nb| |] eqn:Ib; [simpl|done..].
    destruct (py_int E c) as [nc| |] eqn:Ic; [simpl|done..].
    intros [= <-]. unfold HeadVersion_text. simpl.
    by rewrite (py_int_canonical E a na), (py_int_canonical E b nb),
      (py_int_canonical E c nc).
  - rewrite parse_version_dev_suffix by (apply Ha || apply Hb || apply Hc || apply Hd).
    destruct (py_int E a) as [na| |] eqn:Ia; [simpl|done..].
    destruct (py_int E b) as [nb| |] eqn:Ib; [simpl|done..].
    destruct (py_int E c) as [nc| |] eqn:Ic; [simpl|done..].
    destruct (py_int E d) as [nd| |] eqn:Id; [simpl|done..].
    intros [= <-]. unfold HeadVersion_text. simpl.
    by rewrite (py_int_canonical E a na), (py_int_canonical E b nb),
      (py_int_canonical E c nc), (py_int_canonical E d nd).
Qed.

(** C3, as the program has it.  When every numeral of a version text is
    canonical (no leading zero) and [parse_version] reads the text, printing
    the version read gives the text back, character for character; and
    [parse_version] reads the text when its numerals are within the
    interpreter's limit on digits. *)
Theorem render_parse_canonical (E : environment) (v : string) :
  canonical_version v ->
  (forall p, parse_version E v = Return p -> HeadVersion_str E p = Return v) /\
  (readable_version E v ->
   exists p, parse_version E v = Return p /\ HeadVersion_str E p = Return v).
Proof.
  intros Hc.
  assert (forall p, parse_version E v = Return p -> HeadVersion_str E p = Return v) as Hstr.
  { intros p Hp. pose proof (parse_version_Return E v p Hp) as [_ Hpr].
    rewrite HeadVersion_str_outcome, Hpr. f_equal.
    by apply (HeadVersion_text_canonical E). }
  split; [done|]. intros (p & Hp & _)%parse_version_readable. eauto.
Qed.

Lemma canonical_decide s :
  (s <> "" /\ all_digits s = true /\
   match s with
   | String "0" (String _ _) => False
   | _ => True
   end) -> canonical s.
Proof.
  intros (Hne & Hs & Hz). split; [done|].
  destruct s as [|a [|b s]]; [done| |].
  - destruct (decide (a = "0"%char)) as [->|]; [by left|right; congruence].
  - right. intros t [= -> _]. done.
Qed.

Lemma render_parse_canonical_witness :
  exists p, parse_version example_environment "1.2.3-dev5" = Return p /\
            HeadVersion_str example_environment p = Return "1.2.3-dev5".
Proof.
  apply (render_parse_canonical example_environment "1.2.3-dev5").
  - apply (CDev "1" "2" "3" "5"); apply canonical_decide; by vm_compute.
  - apply (RDev example_environment "1" "2" "3" "5"); by split.
Defined.

(** C3, as stated, fails on a leading zero: [1.02.3] is a text of the
    grammar, and it comes back as [1.2.3]. *)
Lemma render_parse_leading_zero :
  version_grammar "1.02.3" /\
  exists p, parse_version example_environment "1.02.3" = Return p /\
            HeadVersion_str example_environment p = Return "1.2.3" /\
            HeadVersion_str example_environment p <> Return "1.02.3".
Proof.
  split.
  - apply (VRelease "1" "02" "3"); by split.
  - eexists. split; [by vm_compute|]. by split.
Qed.

(** ** The bump rules *)

Lemma printable_zero E : printable E 0 = true.
Proof. reflexivity. Qed.

Lemma printable_one E : printable E 1 = true.
Proof. reflexivity. Qed.

(** The version [read_head_version] returns can be printed: its numbers
    came from numerals within the limit. *)
Lemma read_head_version_printable E repo p :
  read_head_version E repo = Return p -> printable_version E p = true.
Proof.
  unfold read_head_version.
  destruct (is_bare repo); [done|].
  destruct (revparse_single repo "HEAD:pyproject.toml") as [e|[bytes| | |]];
    try done; [by intros [= <-]|].
  destruct (utf8_decode E bytes) as [|content]; [done|]. simpl.
  destruct (toml_parse E content) as [|data]; [done|]. simpl.
  destruct (project_version data) as [hv| |]; simpl; try done.
  destruct hv as [[s| | | | | |]|]; try done.
  by intros [_ ?]%parse_version_Return.
Qed.

Lemma calculate_bumped_version_release E repository specific p :
  read_head_version E repository = Return p ->
  calculate_bumped_version E repository RELEASE specific
  = text ← HeadVersion_str E
             (mkHeadVersion (major p) (minor p)
                (match dev p with Some _ => patch p | None => patch p + 1 end)%N None);
    Return (p, text).
Proof.
  intros Hp. unfold calculate_bumped_version. rewrite Hp. simpl.
  by destruct (dev p).
Qed.

Lemma calculate_bumped_version_dev E repository specific p :
  read_head_version E repository = Return p ->
  calculate_bumped_version E repository DEV specific
  = text ← HeadVersion_str E
             (match dev p with
              | None => mkHeadVersion (major p) (minor p) (patch p + 1) (Some 1%N)
              | Some d => mkHeadVersion (major p) (minor p) (patch p) (Some (d + 1)%N)
              end);
    Return (p, text).
Proof.
  intros Hp. unfold calculate_bumped_version. rewrite Hp. simpl.
  by destruct (dev p).
Qed.

(** C1, as the program has it.  From the committed version [p]: RELEASE
    keeps the numbers and drops the dev marker when there is one, and
    advances the patch otherwise; DEV advances the patch and starts the
    counter at 1 when there is no dev marker, and advances the counter
    otherwise.  The numbers of [p] were read within the interpreter's limit
    on digits and are printed; when the number advanced has a numeral over
    the limit, [str()] raises [ValueError] and nothing is returned.  From
    [ZERO_VERSION_SENTINEL] the results are [0.0.1] and [0.0.1-dev1]. *)
Theorem calculate_bumped_version_table (E : environment) (repository : Repository)
    (specific : option string) (p : HeadVersion) :
  read_head_version E repository = Return p ->
  calculate_bumped_version E repository RELEASE specific
  = match dev p with
    | Some _ => Return (p, decimal (major p) +:+ "." +:+ decimal (minor p) +:+ "."
                           +:+ decimal (patch p))
    | None =>
        if printable E (patch p + 1)
        then Return (p, decimal (major p) +:+ "." +:+ decimal (minor p) +:+ "."
                        +:+ decimal (patch p + 1))
        else Raise (str_limit_error E)
    end /\
  calculate_bumped_version E repository DEV specific
  = match dev p with
    | None =>
        if printable E (patch p + 1)
        then Return (p, decimal (major p) +:+ "." +:+ decimal (minor p) +:+ "."
                        +:+ decimal (patch p + 1) +:+ "-dev1")
        else Raise (str_limit_error E)
    | Some d =>
        if printable E (d + 1)
        then Return (p, decimal (major p) +:+ "." +:+ decimal (minor p) +:+ "."
                        +:+ decimal (patch p) +:+ "-dev" +:+ decimal (d + 1))
        else Raise (str_limit_error E)
    end /\
  (p = ZERO_VERSION_SENTINEL ->
   calculate_bumped_version E repository RELEASE specific = Return (p, "0.0.1") /\
   calculate_bumped_version E repository DEV specific = Return (p, "0.0.1-dev1")).
Proof.
  intros Hp.
  pose proof (read_head_version_printable E repository p Hp)
    as (Pa & Pb & Pc & Pd)%printable_version_fields.
  rewrite (calculate_bumped_version_release E repository specific p Hp),
    (calculate_bumped_version_dev E repository specific p Hp).
  rewrite !HeadVersion_str_outcome. unfold printable_version, HeadVersion_text.
  destruct p as [ma mi pa [d|]]; simpl in *; rewrite ?Pa, ?Pb, ?Pc; simpl.
  - split; [done|]. split; [|done]. by destruct (printable E (d + 1)).
  - rewrite andb_true_r.
    split; [by destruct (printable E (pa + 1))|].
    split; [by destruct (printable E (pa + 1))|].
    by intros [= -> -> ->].
Qed.

Lemma calculate_bumped_version_table_witness :
  (calculate_bumped_version example_environment (repository_with (manifest_text "1.2.3"))
     RELEASE None
   = Return (mkHeadVersion 1 2 3 None, "1.2.4") /\
   calculate_bumped_version example_environment (repository_with (manifest_text "1.2.3"))
     DEV None
   = Return (mkHeadVersion 1 2 3 None, "1.2.4-dev1")) /\
  (calculate_bumped_version example_environment (repository_with (manifest_text "1.2.3-dev5"))
     RELEASE None
   = Return (mkHeadVersion 1 2 3 (Some 5%N), "1.2.3") /\
   calculate_bumped_version example_environment (repository_with (manifest_text "1.2.3-dev5"))
     DEV None
   = Return (mkHeadVersion 1 2 3 (Some 5%N), "1.2.3-dev6")).
Proof.
  split.
  - destruct (calculate_bumped_version_table example_environment
                (repository_with (manifest_text "1.2.3")) None
                (mkHeadVersion 1 2 3 None)) as (HR & HD & _); [by vm_compute|].
    split; [exact HR|exact HD].
  - destruct (calculate_bumped_version_table example_environment
                (repository_with (manifest_text "1.2.3-dev5")) None
                (mkHeadVersion 1 2 3 (Some 5%N))) as (HR & HD & _); [by vm_compute|].
    split; [exact HR|exact HD].
Defined.

(** C1, as stated, fails on a committed patch number of 4300 nines under
    the default limit of 4300 digits: the version is read, and RELEASE and
    DEV raise [ValueError] while printing the patch number advanced by one,
    which has 4301 digits. *)
Lemma calculate_bumped_version_largest_patch :
  read_head_version largest_patch_environment
    (repository_with (manifest_text largest_patch))
  = Return (mkHeadVersion 0 0 (10 ^ 4300 - 1) None) /\
  calculate_bumped_version largest_patch_environment
    (repository_with (manifest_text largest_patch)) RELEASE None
  = Raise (Exception "Exceeds the limit (4300 digits) for integer string conversion; use sys.set_int_max_str_digits() to increase the limit") /\
  calculate_bumped_version largest_patch_environment
    (repository_with (manifest_text largest_patch)) DEV None
  = Raise (Exception "Exceeds the limit (4300 digits) for integer string conversion; use sys.set_int_max_str_digits() to increase the limit").
Proof. split; [|split]; vm_compute; reflexivity. Qed.

(** C6.  With SPECIFIC the caller's text is returned as it is, whatever it
    is and whatever the repository holds, and the previous version is
    [ZERO_VERSION_SENTINEL]; a text [parse_version] would refuse is returned
    like any other. *)
Theorem calculate_bumped_version_specific (E : environment) (repository : Repository)
    (v : string) :
  calculate_bumped_version E repository SPECIFIC (Some v)
  = Return (ZERO_VERSION_SENTINEL, v) /\
  (forall p, parse_version E "9.9.9 (draft)" <> Return p) /\
  calculate_bumped_version E repository SPECIFIC (Some "9.9.9 (draft)")
  = Return (ZERO_VERSION_SENTINEL, "9.9.9 (draft)").
Proof.
  split; [reflexivity|]. split; [|reflexivity].
  intros p. by vm_compute.
Qed.

(** C9.  With SPECIFIC and no text, the computation reports "specific
    version required" and exits with code 2; nothing is returned. *)
Theorem calculate_bumped_version_specific_required (E : environment)
    (repository : Repository) :
  calculate_bumped_version E repository SPECIFIC None
  = SystemExit 2 "error: specific version required" /\
  forall r, calculate_bumped_version E repository SPECIFIC None <> Return r.
Proof. split; [reflexivity|]. intros r. discriminate. Qed.

(** ** Reading the committed version *)

Lemma read_head_version_blob (E : environment) (repo : Repository) bytes :
  is_bare repo = false ->
  revparse_single repo "HEAD:pyproject.toml" = inr (Blob bytes) ->
  read_head_version E repo =
    content ← of_sum (utf8_decode E bytes);
    data ← of_sum (toml_parse E content);
    head_version ← project_version data;
    match head_version with
    | Some (tomlkit.IString s) => parse_version E s
    | _ => report_error_and_exit "version missing in pyproject.toml in HEAD"
    end.
Proof. intros Hb Hr. unfold read_head_version. by rewrite Hb, Hr. Qed.

(** C5, as the program has it.  On a working tree, [read_head_version]
    returns [ZERO_VERSION_SENTINEL] when the lookup of the manifest in HEAD
    raises, and also when the committed manifest records a version text
    that parses to 0.0.0; on no other input.  A bare repository is refused
    first.  A manifest in HEAD that is not a blob is refused, and so is one
    whose project table is absent or a table and whose version is missing
    or not a string. *)
Theorem read_head_version_cases (E : environment) (repo : Repository) :
  (read_head_version E repo = Return ZERO_VERSION_SENTINEL <->
     is_bare repo = false /\
     ((exists e, revparse_single repo "HEAD:pyproject.toml" = inl e) \/
      (exists bytes content data s,
         revparse_single repo "HEAD:pyproject.toml" = inr (Blob bytes) /\
         utf8_decode E bytes = inr content /\
         toml_parse E content = inr data /\
         project_version data = Return (Some (tomlkit.IString s)) /\
         parse_version E s = Return ZERO_VERSION_SENTINEL))) /\
  (is_bare repo = true ->
     read_head_version E repo
     = report_error_and_exit "a working tree, not a bare git repository, is required") /\
  (forall obj,
     is_bare repo = false ->
     revparse_single repo "HEAD:pyproject.toml" = inr obj ->
     (forall bytes, obj <> Blob bytes) ->
     read_head_version E repo
     = report_error_and_exit "pyproject.toml is in HEAD, but not a regular file") /\
  (forall bytes content data head_version,
     is_bare repo = false ->
     revparse_single repo "HEAD:pyproject.toml" = inr (Blob bytes) ->
     utf8_decode E bytes = inr content ->
     toml_parse E content = inr data ->
     project_version data = Return head_version ->
     (forall s, head_version <> Some (tomlkit.IString s)) ->
     read_head_version E repo
     = report_error_and_exit "version missing in pyproject.toml in HEAD").
Proof.
  split; [|split; [|split]].
  - split.
    + intros H. unfold read_head_version in H.
      destruct (is_bare repo); [done|]. split; [done|].
      destruct (revparse_single repo "HEAD:pyproject.toml") as [e|obj] eqn:Hr; [by eauto|].
      right. destruct obj as [bytes| | |]; try done.
      destruct (utf8_decode E bytes) as [|content] eqn:Hd; [done|]. simpl in H.
      destruct (toml_parse E content) as [|data] eqn:Ht; [done|]. simpl in H.
      destruct (project_version data) as [hv| |] eqn:Hp; try done. simpl in H.
      destruct hv as [[s| | | | | |]|]; try done.
      by exists bytes, content, data, s.
    + intros [Hb [[e He]|(bytes & content & data & s & Hr & Hd & Ht & Hp & Hs)]].
      * unfold read_head_version. by rewrite Hb, He.
      * rewrite (read_head_version_blob E repo bytes) by done.
        rewrite Hd. simpl. rewrite Ht. simpl. rewrite Hp. done.
  - intros Hb. unfold read_head_version. by rewrite Hb.
  - intros obj Hb Hr Hobj. unfold read_head_version. rewrite Hb, Hr.
    destruct obj as [bytes| | |]; [by destruct (Hobj bytes)|done..].
  - intros bytes content data hv Hb Hr Hd Ht Hp Hhv.
    rewrite (read_head_version_blob E repo bytes) by done.
    rewrite Hd. simpl. rewrite Ht. simpl. rewrite Hp. simpl.
    destruct hv as [[s| | | | | |]|]; try done. by destruct (Hhv s).
Qed.

(** C5, as stated, fails when the commit records [0.0.0]: the manifest is
    there, it is a regular file with a textual version, and the version
    read is [ZERO_VERSION_SENTINEL]. *)
Lemma read_head_version_committed_zero :
  (exists bytes,
     revparse_single (repository_with (manifest_text "0.0.0")) "HEAD:pyproject.toml"
     = inr (Blob bytes)) /\
  read_head_version example_environment (repository_with (manifest_text "0.0.0"))
  = Return ZERO_VERSION_SENTINEL.
Proof. split; [by eexists|by vm_compute]. Qed.

Example read_head_version_first_commit :
  read_head_version example_environment repository_without_manifest
  = Return ZERO_VERSION_SENTINEL.
Proof. reflexivity. Qed.

Example read_head_version_bare :
  read_head_version example_environment
    {| is_bare := true; revparse_single := fun _ => inl (Exception "KeyError") |}
  = SystemExit 2 "error: a working tree, not a bare git repository, is required".
Proof. reflexivity. Qed.

(** ** The structured edit *)

Lemma get_setitem c key v : tomlkit.get (tomlkit.setitem c key v) key = Some v.
Proof. apply lookup_insert_eq. Qed.

Lemma get_setitem_ne c key key' v :
  key <> key' -> tomlkit.get (tomlkit.setitem c key v) key' = tomlkit.get c key'.
Proof. intros Hne. by apply lookup_insert_ne. Qed.

Lemma setitem_setitem c key x y :
  tomlkit.setitem (tomlkit.setitem c key x) key y = tomlkit.setitem c key y.
Proof. apply insert_insert_eq. Qed.

(** One turn of the loop: the table under [part] (an empty one when the
    entry is absent or not a table) is edited and put under [part]. *)
Lemma replace_key_loop_cons part rest key value current :
  replace_key_loop (part :: rest) key value current
  = inner' ← replace_key_loop rest key value (table_at current part);
    Return (tomlkit.setitem current part (tomlkit.ITable inner')).
Proof.
  unfold table_at. cbn [replace_key_loop].
  destruct (tomlkit.get current part) as [[s|n|b|l|t|q|inner]|] eqn:Hget;
    cbn [tomlkit.is_Table]; rewrite ?get_setitem; unfold tomlkit.table; try done.
  all: destruct (replace_key_loop rest key value ∅) as [inner'| |]; simpl; try done.
  all: by rewrite setitem_setitem.
Qed.

(** The loop always returns: where the path meets an entry that is not a
    table, a new table takes its place. *)
Lemma replace_key_loop_returns parts key value : forall current,
  exists doc,
    replace_key_loop parts key value current = Return doc /\
    tomlkit.lookup_path doc parts key = Some (tomlkit.IString value) /\
    forall other, other <> hd key parts ->
      tomlkit.get doc other = tomlkit.get current other.
Proof.
  induction parts as [|part rest IH]; intros current.
  - simpl. eexists. split; [done|]. split; [apply get_setitem|].
    intros other Hne. by apply get_setitem_ne.
  - rewrite replace_key_loop_cons.
    destruct (IH (table_at current part)) as (inner' & -> & Hl & _). simpl.
    eexists. split; [done|]. rewrite get_setitem. split; [done|].
    intros other Hne. by apply get_setitem_ne.
Qed.

Lemma replace_key_in_section_result (E : environment) (text section key value : string) :
  match toml_parse E text with
  | inl e => replace_key_in_section E text section key value = Raise e
  | inr current =>
      exists doc,
        replace_key_loop (split "." section) key value current = Return doc /\
        replace_key_in_section E text section key value = Return (toml_dumps E doc)
  end.
Proof.
  unfold replace_key_in_section.
  destruct (toml_parse E text) as [e|current]; [done|]. simpl.
  destruct (replace_key_loop_returns (split "." section) key value current)
    as (doc & Hdoc & _). exists doc. by rewrite Hdoc.
Qed.

Lemma replace_key_in_section_no_exit (E : environment) (text section key value : string)
    code msg :
  replace_key_in_section E text section key value <> SystemExit code msg.
Proof.
  pose proof (replace_key_in_section_result E text section key value) as H.
  destruct (toml_parse E text); [by rewrite H|].
  destruct H as (doc & _ & ->). done.
Qed.

(** C4, as the program has it.  The structured edit never fails on an
    entry that is not a table: the loop puts a new, empty table in its
    place and goes on, so the edit returns a document in which the path
    leads through tables to the new value; only a text tomlkit cannot
    parse makes [replace_key_in_section] fail, with tomlkit's exception. *)
Theorem replace_key_in_section_replaces_non_tables (E : environment)
    (text section key value : string) :
  (forall current, exists doc,
     replace_key_loop (split "." section) key value current = Return doc /\
     tomlkit.lookup_path doc (split "." section) key = Some (tomlkit.IString value)) /\
  match toml_parse E text with
  | inl e => replace_key_in_section E text section key value = Raise e
  | inr current =>
      exists doc,
        replace_key_loop (split "." section) key value current = Return doc /\
        replace_key_in_section E text section key value = Return (toml_dumps E doc)
  end.
Proof.
  split.
  - intros current.
    destruct (replace_key_loop_returns (split "." section) key value current)
      as (doc & ? & ? & _). eauto.
  - apply replace_key_in_section_result.
Qed.

(** C4, as stated, fails where [project] is a string: the edit does not
    fail, and the string is gone. *)
Lemma replace_key_loop_overwrites_string :
  tomlkit.is_Table (tomlkit.get {[ "project" := tomlkit.IString "x" ]} "project") = false /\
  replace_key_loop (split "." "project") "version" "1.0"
    {[ "project" := tomlkit.IString "x" ]}
  = Return {[ "project" := tomlkit.ITable {[ "version" := tomlkit.IString "1.0" ]} ]}.
Proof. split; by vm_compute. Qed.

(** ** Lines of a file *)

Lemma lines_nonempty s : s <> "" -> lines s <> [].
Proof.
  destruct s as [|a r]; [done|]. intros _. simpl.
  destruct (Ascii.eqb a LF); [done|].
  destruct (Ascii.eqb a CR).
  - destruct r as [|b r']; [done|]. by destruct (Ascii.eqb b LF).
  - by destruct (lines r).
Qed.

Lemma lines_single_nonempty l : lines l = [l] -> l <> "".
Proof. by intros H ->. Qed.

Lemma last_char_cons a s : s <> "" -> last_char (String a s) = last_char s.
Proof. by destruct s. Qed.

Lemma follows_cons a l t : l <> "" -> follows (String a l) t <-> follows l t.
Proof. intros Hl. unfold follows. by rewrite last_char_cons. Qed.

Lemma head_char_app l t : l <> "" -> head_char (l +:+ t) = head_char l.
Proof. by destruct l. Qed.

(** The first line of a text, and what is left. *)
Lemma lines_cons text : forall l rest,
  lines text = l :: rest ->
  exists text', text = l +:+ text' /\ lines text' = rest /\ lines l = [l] /\ follows l text'.
Proof.
  induction text as [|a r IH]; intros l rest H; [done|]. simpl in H.
  destruct (Ascii.eqb a LF) eqn:Ha.
  { injection H as <- <-. exists r. simpl. rewrite Ha.
    repeat split; try done. unfold follows. simpl. by rewrite Ha. }
  destruct (Ascii.eqb a CR) eqn:Hc.
  { destruct r as [|b r'].
    - injection H as <- <-. exists "". simpl. rewrite Ha, Hc.
      repeat split; try done. unfold follows. simpl. by rewrite Ha, Hc.
    - destruct (Ascii.eqb b LF) eqn:Hb.
      + injection H as <- <-. exists r'. simpl. rewrite Ha, Hc, Hb.
        repeat split; try done. unfold follows. simpl. by rewrite Hb.
      + injection H as <- <-. exists (String b r'). simpl. rewrite Ha, Hc.
        repeat split; try done. unfold follows. simpl. rewrite Ha, Hc.
        intros [= ->]. apply Ascii.eqb_neq in Hb. done. }
  destruct (lines r) as [|l0 ls] eqn:Hr.
  - injection H as <- <-.
    assert (r = "") as -> by (destruct (decide (r = "")) as [|Hne%lines_nonempty]; done).
    exists "". simpl. rewrite Ha, Hc.
    repeat split; try done. unfold follows. simpl. by rewrite Ha, Hc.
  - injection H as <- <-.
    destruct (IH l0 ls eq_refl) as (text' & -> & Ht & Hl0 & Hf).
    exists text'. split; [done|]. split; [done|].
    pose proof (lines_single_nonempty _ Hl0) as Hne.
    split; [|by apply follows_cons].
    simpl. by rewrite Ha, Hc, Hl0.
Qed.

(** Writing the lines back gives the text. *)
Lemma join_lines_of ls : forall text, lines text = ls -> join ls = text.
Proof.
  induction ls as [|l rest IH]; intros text H.
  - destruct (decide (text = "")) as [->|Hne%lines_nonempty]; done.
  - apply lines_cons in H as (text' & -> & Ht & _ & _).
    simpl. by rewrite (IH text' Ht).
Qed.


(** A line followed by a text that [follows] it is read back as it is. *)
Lemma lines_single_app l : forall t,
  lines l = [l] -> follows l t -> lines (l +:+ t) = l :: lines t.
Proof.
  induction l as [|a r IH]; intros t Hl Hf; [done|].
  rewrite app_cons. simpl in Hl |- *.
  destruct (Ascii.eqb a LF) eqn:Ha.
  { injection Hl as Hr. by destruct r. }
  destruct (Ascii.eqb a CR) eqn:Hc.
  { destruct r as [|b r'].
    - unfold follows in Hf. simpl in Hf. rewrite Ha, Hc in Hf.
      rewrite app_empty_l. destruct t as [|b t']; [done|].
      destruct (Ascii.eqb b LF) eqn:Hb; [|done].
      apply Ascii.eqb_eq in Hb as ->. done.
    - rewrite app_cons. destruct (Ascii.eqb b LF) eqn:Hb.
      + injection Hl as Hr. by destruct r'.
      + by injection Hl. }
  destruct (lines r) as [|l0 ls] eqn:Hr.
  - assert (r = "") as -> by (destruct (decide (r = "")) as [|Hne%lines_nonempty]; done).
    unfold follows in Hf. simpl in Hf. rewrite Ha, Hc in Hf. subst t. done.
  - injection Hl as -> ->.
    pose proof (lines_single_nonempty _ Hr) as Hne.
    rewrite (IH t eq_refl); [done|]. by apply follows_cons in Hf.
Qed.

(** Replacing one line of a file by a line that ends in a line feed, holds
    no other line ending and does not start with a line feed leaves every
    other line where it was. *)
Lemma lines_replace new l2 : forall l1 text m,
  lines text = l1 ++ m :: l2 ->
  lines new = [new] -> last_char new = Some LF -> head_char new <> Some LF ->
  lines (join (l1 ++ new :: l2)) = l1 ++ new :: l2.
Proof.
  intros l1 text m H Hnew Hlast Hhead. revert text H.
  assert (Hfn : forall t, follows new t).
  { intros t. unfold follows. by rewrite Hlast. }
  induction l1 as [|l l1 IH]; intros text H; simpl in *.
  - apply lines_cons in H as (text' & -> & Ht & _ & _).
    rewrite lines_single_app by done. by rewrite (join_lines_of _ _ Ht), Ht.
  - apply lines_cons in H as (text' & -> & Ht & Hl & Hf).
    rewrite lines_single_app; [by rewrite (IH text' Ht)|done|].
    unfold follows in *. destruct (last_char l) as [a|]; [|done].
    destruct (Ascii.eqb a LF); [done|]. destruct (Ascii.eqb a CR).
    + destruct l1 as [|l' l1]; simpl in *.
      * by rewrite head_char_app by (by apply lines_single_nonempty).
      * apply lines_cons in Ht as (text'' & -> & _ & Hl' & _).
        pose proof (lines_single_nonempty _ Hl') as Hne.
        rewrite head_char_app in Hf by done. by rewrite head_char_app.
    + subst text'. by destruct l1.
Qed.

(** ** The line that carries the constant *)

Lemma contains_app a s t : contains a (s +:+ t) = contains a s || contains a t.
Proof.
  induction s as [|b s IH]; [done|]. rewrite app_cons. simpl.
  by rewrite IH, orb_assoc.
Qed.

Lemma all_in_Dot s : Re.all_in Re.Dot s = negb (contains LF s).
Proof.
  induction s as [|a s IH]; [done|]. simpl. rewrite IH.
  by destruct (Ascii.eqb a LF).
Qed.

Lemma lines_terminated p :
  contains LF p = false -> contains CR p = false ->
  lines (p +:+ String LF "") = [p +:+ String LF ""].
Proof.
  induction p as [|a p IH]; [done|]. simpl.
  intros [Ha Hp]%orb_false_iff [Hc Hp']%orb_false_iff.
  rewrite app_cons. simpl. rewrite Ha, Hc. by rewrite IH.
Qed.

Lemma last_char_terminated p : last_char (p +:+ String LF "") = Some LF.
Proof.
  induction p as [|a p IH]; [done|]. rewrite app_cons.
  rewrite last_char_cons; [done|]. by destruct p.
Qed.

Lemma assignment_line_terminated v :
  assignment_line v
  = ("VERSION: Final[str] = " +:+ String DQUOTE (v +:+ String DQUOTE "")) +:+ String LF "".
Proof.
  unfold assignment_line. rewrite app_assoc', !app_cons. do 2 f_equal.
  by rewrite app_assoc'.
Qed.

Lemma assignment_line_single v :
  contains LF v = false -> contains CR v = false ->
  lines (assignment_line v) = [assignment_line v].
Proof.
  intros Hl Hc. rewrite assignment_line_terminated.
  apply lines_terminated.
  - rewrite contains_app. simpl. rewrite contains_app, Hl. done.
  - rewrite contains_app. simpl. rewrite contains_app, Hc. done.
Qed.

(** The written line is in the language of the pattern whenever the version
    text has no line feed; a double quote in it does no harm. *)
Lemma assignment_line_Matches v :
  contains LF v = false ->
  Re.Matches version_pattern (assignment_line v) ∅ ∅.
Proof.
  intros Hv.
  change (assignment_line v) with
    ("VERSION:" +:+ " " +:+ "Final[str]" +:+ " " +:+ "=" +:+ " " +:+
     String DQUOTE "" +:+ v +:+ String DQUOTE "" +:+ "" +:+ String LF "").
  unfold version_pattern, spaces, Re.Opt.
  repeat (eapply Re.MCat;
    [first [ by apply ReFacts.Matches_Lit
           | by apply ReFacts.Matches_Star_One
           | by apply ReFacts.Matches_One; eexists
           | apply ReFacts.Matches_Star_One; rewrite all_in_Dot, Hv; done ]|]).
  apply Re.MAltL, ReFacts.Matches_One. by eexists.
Qed.

Lemma assignment_line_fullmatch v :
  contains LF v = false ->
  is_Some (Re.fullmatch version_pattern (assignment_line v)).
Proof. intros Hv. eapply ReFacts.fullmatch_complete, assignment_line_Matches, Hv. Qed.

(** ** What the loop writes *)

Lemma init_lines_replaced v src : init_lines v true src = src.
Proof. induction src as [|l src IH]; [done|]. simpl. by rewrite IH. Qed.


Lemma init_lines_first_match v l1 m l2 :
  Forall (fun l => Re.fullmatch version_pattern l = None) l1 ->
  is_Some (Re.fullmatch version_pattern m) ->
  init_lines v false (l1 ++ m :: l2) = l1 ++ assignment_line v :: l2.
Proof.
  intros H1 Hm. induction H1 as [|l l1 Hl _ IH]; simpl.
  - rewrite bool_decide_eq_true_2 by done. simpl. by rewrite init_lines_replaced.
  - rewrite Hl. rewrite bool_decide_eq_false_2 by (by intros [? ?]). simpl.
    by rewrite IH.
Qed.

(** ** Steps on the file system *)

Lemma io_bind_run {A B} (m : io A) (f : A -> io B) w :
  (m ≫= f) w =
  match m w with
  | (Return a, w') => f a w'
  | (Raise e, w') => (Raise e, w')
  | (SystemExit code msg, w') => (SystemExit code msg, w')
  end.
Proof. reflexivity. Qed.

Lemma same_except_refl name w : same_except name w w.
Proof. by split. Qed.

Lemma same_except_trans name w1 w2 w3 :
  same_except name w1 w2 -> same_except name w2 w3 -> same_except name w1 w3.
Proof.
  intros [H1 H1'] [H2 H2']. split.
  - intros p Hp. by rewrite H2, H1.
  - auto.
Qed.

Lemma same_except_insert name text w : same_except name w (<[name := text]> w).
Proof.
  split.
  - intros p Hp. by rewrite lookup_insert_ne.
  - intros _. rewrite lookup_insert_eq. by eexists.
Qed.

(** A step that can only fail leaves the files alone. *)
Lemma may_fail_run err w :
  may_fail err w = (match err with Some e => Raise e | None => Return tt end, w).
Proof. by destruct err. Qed.

Lemma first_free_Some dir pre suf randoms w name :
  first_free dir pre suf randoms w = Some name ->
  w !! name = None /\ exists r, name = dir +:+ "/" +:+ pre +:+ r +:+ suf.
Proof.
  induction randoms as [|r rs IH]; simpl; [done|].
  destruct (w !! (dir +:+ "/" +:+ pre +:+ r +:+ suf)) eqn:Hw; [done|].
  intros [= <-]. eauto.
Qed.

Lemma mkstemp_Return E pre suf dir w name w1 :
  mkstemp E pre suf dir w = (Return name, w1) ->
  w !! name = None /\ w1 = <[name := ""]> w /\
  exists r, name = dir +:+ "/" +:+ pre +:+ r +:+ suf.
Proof.
  unfold mkstemp. rewrite io_bind_run, may_fail_run.
  destruct (mkstemp_error (errors E)); [done|].
  destruct (first_free dir pre suf (tmp_random E) w) as [n|] eqn:Hf; [|done].
  intros [= <- <-]. by apply first_free_Some in Hf as [? ?].
Qed.

Lemma init_tmp_ne E r :
  module_dir E +:+ "/" +:+ "__init__." +:+ r +:+ ".tmp" <> init_path E.
Proof.
  unfold init_path. intros H%(inj (String.append (module_dir E))).
  rewrite !app_cons, app_empty_l in H. injection H as H.
  destruct r as [|a [|b [|c r]]]; discriminate H.
Qed.

Lemma pyproject_tmp_ne r :
  "." +:+ "/" +:+ "pyproject." +:+ r +:+ ".tmp" <> pyproject_path.
Proof. discriminate. Qed.

(** The loop writes to the temporary file only, and ends by returning or
    by an exception. *)
Lemma copy_lines_frame E tmp v src : forall i replaced w r w',
  copy_lines E tmp v i replaced src w = (r, w') ->
  same_except tmp w w' /\ (r = Return tt \/ exists e, r = Raise e).
Proof.
  induction src as [|l src IH]; intros i replaced w r w'; simpl;
    rewrite io_bind_run, may_fail_run.
  - destruct (read_error (errors E) i); intros [= <- <-];
      (split; [apply same_except_refl|eauto]).
  - destruct (read_error (errors E) i);
      [intros [= <- <-]; split; [apply same_except_refl|eauto]|].
    destruct (negb replaced && _);
      rewrite io_bind_run; unfold file_write;
      rewrite io_bind_run, may_fail_run;
      (destruct (write_error (errors E) i);
        [intros [= <- <-]; split; [apply same_except_refl|eauto]|]);
      intros [Hs Hr]%IH; (split; [|done]);
      (eapply same_except_trans; [apply same_except_insert|done]).
Qed.


(** Removing the temporary file, failures ignored. *)
Lemma remove_quietly E tmp w :
  is_Some (w !! tmp) ->
  exists w',
    try_except (os_remove E tmp) (fun _ => mret tt) w = (Return tt, w') /\
    (forall p, p <> tmp -> w' !! p = w !! p) /\
    (remove_error (errors E) = None -> w' !! tmp = None) /\
    (is_Some (remove_error (errors E)) -> w' = w).
Proof.
  intros [t Ht]. unfold try_except, os_remove.
  rewrite io_bind_run, may_fail_run.
  destruct (remove_error (errors E)) as [e|]; simpl.
  - exists w. repeat split; try done.
  - rewrite Ht. exists (delete tmp w). repeat split.
    + intros p Hp. by rewrite lookup_delete_ne.
    + intros _. apply lookup_delete_eq.
    + by intros [? ?].
Qed.

(** ** A failed update *)

(** The suite of the [try] returns, or it raises an exception and has
    touched the temporary file only. *)
Lemma init_try_block_outcome E tmp v w r w' :
  init_try_block E tmp v w = (r, w') ->
  r = Return tt \/ ((exists e, r = Raise e) /\ same_except tmp w w').
Proof.
  unfold init_try_block. rewrite io_bind_run, may_fail_run.
  destruct (fdopen_error (errors E));
    [intros [= <- <-]; right; split; [eauto|apply same_except_refl]|].
  rewrite io_bind_run. unfold open_read. rewrite io_bind_run, may_fail_run.
  destruct (open_error (errors E));
    [intros [= <- <-]; right; split; [eauto|apply same_except_refl]|].
  destruct (w !! init_path E) as [text|];
    [|intros [= <- <-]; right; split; [eauto|apply same_except_refl]].
  rewrite io_bind_run.
  destruct (copy_lines E tmp v 0 false (lines text) w) as [r1 w1] eqn:Hc.
  apply copy_lines_frame in Hc as [Hs [->|[e ->]]];
    [|intros [= <- <-]; right; split; [eauto|done]].
  rewrite io_bind_run, may_fail_run.
  destruct (close_error (errors E));
    [intros [= <- <-]; right; split; [eauto|done]|].
  unfold os_replace. rewrite io_bind_run, may_fail_run.
  destruct (replace_error (errors E));
    [intros [= <- <-]; right; split; [eauto|done]|].
  destruct (w1 !! tmp);
    [intros [= <- <-]; by left|intros [= <- <-]; right; split; [eauto|done]].
Qed.

Lemma pyproject_try_block_outcome E tmp v w r w' :
  pyproject_try_block E tmp v w = (r, w') ->
  r = Return tt \/ ((exists e, r = Raise e) /\ same_except tmp w w').
Proof.
  unfold pyproject_try_block. rewrite io_bind_run, may_fail_run.
  destruct (fdopen_error (errors E));
    [intros [= <- <-]; right; split; [eauto|apply same_except_refl]|].
  rewrite io_bind_run. unfold open_read. rewrite io_bind_run, may_fail_run.
  destruct (open_error (errors E));
    [intros [= <- <-]; right; split; [eauto|apply same_except_refl]|].
  destruct (w !! pyproject_path) as [text|];
    [|intros [= <- <-]; right; split; [eauto|apply same_except_refl]].
  rewrite io_bind_run, may_fail_run.
  destruct (read_error (errors E) 0);
    [intros [= <- <-]; right; split; [eauto|apply same_except_refl]|].
  rewrite io_bind_run. unfold lift at 1.
  pose proof (replace_key_in_section_no_exit E text "project" "version" v) as Hne1.
  destruct (replace_key_in_section E text "project" "version" v) as [content1|e|code msg];
    [|intros [= <- <-]; right; split; [eauto|apply same_except_refl]
     |by destruct (Hne1 code msg)].
  rewrite io_bind_run. unfold lift at 1.
  pose proof (replace_key_in_section_no_exit E content1 "tool.uv" "exclude-newer" (utcnow E))
    as Hne2.
  destruct (replace_key_in_section E content1 "tool.uv" "exclude-newer" (utcnow E))
    as [content2|e|code msg];
    [|intros [= <- <-]; right; split; [eauto|apply same_except_refl]
     |by destruct (Hne2 code msg)].
  rewrite io_bind_run. unfold file_write. rewrite io_bind_run, may_fail_run.
  destruct (write_error (errors E) 0);
    [intros [= <- <-]; right; split; [eauto|apply same_except_refl]|].
  rewrite io_bind_run, may_fail_run.
  destruct (close_error (errors E));
    [intros [= <- <-]; right; split; [eauto|apply same_except_insert]|].
  unfold os_replace. rewrite io_bind_run, may_fail_run.
  destruct (replace_error (errors E));
    [intros [= <- <-]; right; split; [eauto|apply same_except_insert]|].
  destruct (<[tmp:=_]> w !! tmp);
    [intros [= <- <-]; by left
    |intros [= <- <-]; right; split; [eauto|apply same_except_insert]].
Qed.

(** The handler after a failed suite: the temporary file is removed when
    [os.remove] works, every other file is as the suite left it, and the
    outcome is the report the handler makes, whether or not the removal
    worked. *)
Lemma failed_update E tmp w w1 w2 (report : result unit) r w' :
  w !! tmp = None -> w1 = <[tmp := ""]> w -> same_except tmp w1 w2 ->
  (_ ← try_except (os_remove E tmp) (fun _ => mret tt); lift report) w2 = (r, w') ->
  r = report /\
  (forall p, p <> tmp -> w' !! p = w !! p) /\
  (remove_error (errors E) = None -> w' = w) /\
  (is_Some (remove_error (errors E)) -> w' = w2).
Proof.
  intros Hw -> [Hs Hs'] H.
  destruct (remove_quietly E tmp w2) as (w3 & Hrm & Hoth & Hdel & Hkeep).
  { apply Hs'. rewrite lookup_insert_eq. by eexists. }
  rewrite io_bind_run, Hrm in H. injection H as <- <-.
  split; [done|]. split; [|split; [|done]].
  - intros p Hp. by rewrite Hoth, Hs, lookup_insert_ne.
  - intros Hn. apply map_eq. intros p. destruct (decide (p = tmp)) as [->|Hp].
    + by rewrite Hdel, Hw.
    + by rewrite Hoth, Hs, lookup_insert_ne.
Qed.

Lemma update_init_version_failure E v w tmp w1 r w' :
  mkstemp E "__init__." ".tmp" (module_dir E) w = (Return tmp, w1) ->
  update_init_version E v w = (r, w') ->
  r <> Return tt ->
  (exists cause w2, init_try_block E tmp v w1 = (Raise cause, w2)) /\
  r = report_error_and_exit "failed to update VERSION constant in __init__.py" /\
  w' !! init_path E = w !! init_path E /\
  (forall p, p <> tmp -> w' !! p = w !! p) /\
  (remove_error (errors E) = None -> w' = w).
Proof.
  intros Hmk Hup Hr. unfold update_init_version in Hup.
  rewrite io_bind_run, Hmk in Hup.
  apply mkstemp_Return in Hmk as (Hfree & Hw1 & rnd & Hname).
  unfold try_except in Hup at 1.
  destruct (init_try_block E tmp v w1) as [r2 w2] eqn:Hb.
  destruct (init_try_block_outcome _ _ _ _ _ _ Hb) as [->|[[e ->] Hs]].
  { injection Hup as <- <-. done. }
  eapply failed_update in Hup as (-> & Hoth & Hdel & _); [|done..].
  split; [by eauto|]. split; [done|]. split; [|done].
  apply Hoth. rewrite Hname. intros Heq. symmetry in Heq. by apply init_tmp_ne in Heq.
Qed.

Lemma update_pyproject_version_failure E v w tmp w1 r w' :
  mkstemp E "pyproject." ".tmp" "." w = (Return tmp, w1) ->
  update_pyproject_version E v w = (r, w') ->
  r <> Return tt ->
  (exists cause w2,
     pyproject_try_block E tmp v w1 = (Raise (Exception cause), w2) /\
     r = report_error_and_exit
           ("failed to update pyproject.toml: " +:+ cause
            +:+ "; project may be in an inconsistent version state")) /\
  w' !! pyproject_path = w !! pyproject_path /\
  (forall p, p <> tmp -> w' !! p = w !! p) /\
  (remove_error (errors E) = None -> w' = w).
Proof.
  intros Hmk Hup Hr. unfold update_pyproject_version in Hup.
  rewrite io_bind_run, Hmk in Hup.
  apply mkstemp_Return in Hmk as (Hfree & Hw1 & rnd & Hname).
  unfold try_except in Hup at 1.
  destruct (pyproject_try_block E tmp v w1) as [r2 w2] eqn:Hb.
  destruct (pyproject_try_block_outcome _ _ _ _ _ _ Hb) as [->|[[[cause] ->] Hs]].
  { injection Hup as <- <-. done. }
  eapply failed_update in Hup as (-> & Hoth & Hdel & _); [|done..].
  split; [by eauto|]. split; [|done].
  apply Hoth. rewrite Hname. intros Heq. symmetry in Heq. by apply pyproject_tmp_ne in Heq.
Qed.



(** ** A successful update of the constant *)





(** ** The next run finds the line again *)

(** C10, as the program has it.  When the new version text has no line
    feed, the line written for it matches the pattern, double quote or not.
    When it has no carriage return either, the written line is one line of
    the new file, in the place of the line it replaced, and the next run
    replaces it again. *)
Theorem written_line_matches_the_pattern (v v2 : string) :
  contains LF v = false ->
  is_Some (Re.fullmatch version_pattern (assignment_line v)) /\
  (contains CR v = false ->
   forall text l1 m l2,
     lines text = l1 ++ m :: l2 ->
     Forall (fun l => Re.fullmatch version_pattern l = None) l1 ->
     is_Some (Re.fullmatch version_pattern m) ->
     lines (join (init_lines v false (lines text))) = l1 ++ assignment_line v :: l2 /\
     init_lines v2 false (lines (join (init_lines v false (lines text))))
     = l1 ++ assignment_line v2 :: l2).
Proof.
  intros Hlf. pose proof (assignment_line_fullmatch v Hlf) as Hm.
  split; [done|]. intros Hcr text l1 m l2 Ht Hl1 Hmm.
  assert (lines (join (init_lines v false (lines text))) = l1 ++ assignment_line v :: l2)
    as Hlines.
  { rewrite Ht, init_lines_first_match by done.
    apply (lines_replace _ _ _ text m); [done| | |done].
    - by apply assignment_line_single.
    - rewrite assignment_line_terminated. apply last_char_terminated. }
  split; [done|]. rewrite Hlines. by apply init_lines_first_match.
Qed.

Lemma written_line_matches_the_pattern_witness :
  is_Some (Re.fullmatch version_pattern (assignment_line "1.2.4")) /\
  init_lines "1.2.5" false (lines (join (init_lines "1.2.4" false (lines (init_text "0.0.1-dev24")))))
  = lines (init_text "1.2.5").
Proof.
  destruct (written_line_matches_the_pattern "1.2.4" "1.2.5") as [Hm Hnext]; [reflexivity|].
  split; [exact Hm|].
  destruct (Hnext eq_refl (init_text "0.0.1-dev24")
              [line "# This is automatically updated"]
              (assignment_line "0.0.1-dev24")
              [line ""; line ("VERSION: Final[str] = " +:+ quoted "shadow")])
    as [_ ->]; [reflexivity|by repeat constructor|by vm_compute|reflexivity].
Defined.

(** C10, as stated, fails on a version text with a line feed and no double
    quote: the written line does not match the pattern, the file holds it
    as two lines, and the next run finds no line to replace. *)
Lemma written_line_with_line_feed :
  contains DQUOTE ("1.2.4" +:+ String LF "") = false /\
  Re.fullmatch version_pattern (assignment_line ("1.2.4" +:+ String LF "")) = None /\
  lines (join (init_lines ("1.2.4" +:+ String LF "") false
                 (lines (assignment_line "0.0.1-dev24"))))
  = [line ("VERSION: Final[str] = " +:+ String DQUOTE "1.2.4"); line (String DQUOTE "")] /\
  init_lines "1.2.5" false
    (lines (join (init_lines ("1.2.4" +:+ String LF "") false
                    (lines (assignment_line "0.0.1-dev24")))))
  = [line ("VERSION: Final[str] = " +:+ String DQUOTE "1.2.4"); line (String DQUOTE "")].
Proof. repeat split; by vm_compute. Qed.

(** * Further properties *)

(** ** Printing a version and reading it back *)

(** X1.  Reading back what [__str__] printed gives the version printed:
    whenever [str(p)] returns a text, [parse_version] on the text is [p];
    so two versions that print the same text are the same version. *)
Theorem parse_version_str (E : environment) (p : HeadVersion) (s : string) :
  HeadVersion_str E p = Return s ->
  parse_version E s = Return p /\
  forall q, HeadVersion_str E q = Return s -> q = p.
Proof.
  intros [Hp ->]%HeadVersion_str_Return.
  pose proof (parse_version_HeadVersion_text E p Hp) as Hparse.
  split; [done|]. intros q [Hq Heq]%HeadVersion_str_Return.
  rewrite Heq, (parse_version_HeadVersion_text E q Hq) in Hparse.
  by injection Hparse.
Qed.

Lemma parse_version_str_witness :
  parse_version example_environment "1.2.3-dev5" = Return (mkHeadVersion 1 2 3 (Some 5%N)) /\
  forall q, HeadVersion_str example_environment q = Return "1.2.3-dev5" ->
            q = mkHeadVersion 1 2 3 (Some 5%N).
Proof.
  apply (parse_version_str example_environment (mkHeadVersion 1 2 3 (Some 5%N))
           "1.2.3-dev5").
  reflexivity.
Defined.

Lemma HeadVersion_str_inj E p q s :
  HeadVersion_str E p = Return s -> HeadVersion_str E q = Return s -> p = q.
Proof.
  intros [Hp ->]%HeadVersion_str_Return [Hq Heq]%HeadVersion_str_Return.
  pose proof (parse_version_HeadVersion_text E p Hp) as Hparse.
  rewrite Heq, (parse_version_HeadVersion_text E q Hq) in Hparse.
  by injection Hparse.
Qed.

(** ** What a bump produces *)

Lemma bind_Return {A B} (m : result A) (f : A -> result B) b :
  m ≫= f = Return b -> exists a, m = Return a /\ f a = Return b.
Proof. destruct m as [a| |]; [|done..]. intros H. by exists a. Qed.

(** X2.  The text a RELEASE or DEV bump computes is a version text:
    [parse_version] reads it, as a version without dev marker after RELEASE
    and with one after DEV, with the major and minor numbers of the
    committed version. *)
Theorem bumped_version_parses (E : environment) (repository : Repository)
    (mode : BumpMode) (specific : option string) (head : HeadVersion) (bumped : string) :
  mode <> SPECIFIC ->
  calculate_bumped_version E repository mode specific = Return (head, bumped) ->
  exists q,
    parse_version E bumped = Return q /\ HeadVersion_str E q = Return bumped /\
    major q = major head /\ minor q = minor head /\
    (mode = RELEASE -> dev q = None) /\
    (mode = DEV -> is_Some (dev q)).
Proof.
  intros Hmode H. destruct mode; [| |done].
  - destruct (read_head_version E repository) as [p| |] eqn:Hp;
      [|unfold calculate_bumped_version in H; by rewrite Hp in H..].
    rewrite (calculate_bumped_version_release E repository specific p Hp) in H.
    apply bind_Return in H as (text & Hstr & [= <- <-]).
    eexists. split; [|split; [exact Hstr|by repeat split]].
    apply HeadVersion_str_Return in Hstr as [Hpr ->].
    by apply parse_version_HeadVersion_text.
  - destruct (read_head_version E repository) as [p| |] eqn:Hp;
      [|unfold calculate_bumped_version in H; by rewrite Hp in H..].
    rewrite (calculate_bumped_version_dev E repository specific p Hp) in H.
    apply bind_Return in H as (text & Hstr & [= <- <-]).
    eexists. split; [|split; [exact Hstr|]].
    + apply HeadVersion_str_Return in Hstr as [Hpr ->].
      by apply parse_version_HeadVersion_text.
    + destruct (dev p); repeat split; by eauto.
Qed.

Lemma bumped_version_parses_witness :
  exists q,
    parse_version example_environment "1.2.4-dev1" = Return q /\
    HeadVersion_str example_environment q = Return "1.2.4-dev1" /\
    major q = 1%N /\ minor q = 2%N /\
    (DEV = RELEASE -> dev q = None) /\ (DEV = DEV -> is_Some (dev q)).
Proof.
  apply (bumped_version_parses example_environment
           (repository_with (manifest_text "1.2.3")) DEV None
           (mkHeadVersion 1 2 3 None) "1.2.4-dev1"); [done|by vm_compute].
Defined.

(** X3.  A RELEASE or DEV bump never gives back the committed version: the
    text it computes is not the text of the version it started from. *)
Theorem bumped_version_differs (E : environment) (repository : Repository)
    (mode : BumpMode) (specific : option string) (head : HeadVersion) (bumped : string) :
  mode <> SPECIFIC ->
  calculate_bumped_version E repository mode specific = Return (head, bumped) ->
  HeadVersion_str E head <> Return bumped.
Proof.
  intros Hmode H. destruct mode; [| |done].
  - destruct (read_head_version E repository) as [p| |] eqn:Hp;
      [|unfold calculate_bumped_version in H; by rewrite Hp in H..].
    rewrite (calculate_bumped_version_release E repository specific p Hp) in H.
    apply bind_Return in H as (text & Hstr & [= <- <-]).
    intros Heq. pose proof (HeadVersion_str_inj E _ _ _ Heq Hstr) as Hpq.
    destruct p as [ma mi pa [d|]]; simpl in Hpq; [done|].
    injection Hpq. lia.
  - destruct (read_head_version E repository) as [p| |] eqn:Hp;
      [|unfold calculate_bumped_version in H; by rewrite Hp in H..].
    rewrite (calculate_bumped_version_dev E repository specific p Hp) in H.
    apply bind_Return in H as (text & Hstr & [= <- <-]).
    intros Heq. pose proof (HeadVersion_str_inj E _ _ _ Heq Hstr) as Hpq.
    destruct p as [ma mi pa [d|]]; simpl in Hpq; [|done].
    injection Hpq. lia.
Qed.

Lemma bumped_version_differs_witness :
  HeadVersion_str example_environment (mkHeadVersion 1 2 3 (Some 5%N)) <> Return "1.2.3".
Proof.
  apply (bumped_version_differs example_environment
           (repository_with (manifest_text "1.2.3-dev5")) RELEASE None
           (mkHeadVersion 1 2 3 (Some 5%N)) "1.2.3"); [done|by vm_compute].
Defined.

(** ** The structured edit, entry by entry *)

Lemma table_path_empty l b :
  match tomlkit.table_path ∅ l with
  | Some t0 => tomlkit.get t0 b
  | None => None
  end = None.
Proof.
  destruct l as [|x l]; [apply lookup_empty|]. simpl. unfold tomlkit.get.
  by rewrite lookup_empty.
Qed.

Lemma table_path_table_at c x l b :
  match tomlkit.table_path (table_at c x) l with
  | Some t0 => tomlkit.get t0 b
  | None => None
  end
  = match tomlkit.table_path c (x :: l) with
    | Some t0 => tomlkit.get t0 b
    | None => None
    end.
Proof.
  unfold table_at. simpl.
  destruct (tomlkit.get c x) as [[s|n|bb|ll|t|q|inner]|]; try done;
    apply table_path_empty.
Qed.

Lemma replace_key_loop_frame l : forall parts key value c d a r,
  replace_key_loop parts key value c = Return d ->
  parts ++ [key] = l ++ a :: r ->
  exists t,
    tomlkit.table_path d l = Some t /\
    forall b, b <> a ->
      tomlkit.get t b = match tomlkit.table_path c l with
                        | Some t0 => tomlkit.get t0 b
                        | None => None
                        end.
Proof.
  induction l as [|x l IH]; intros parts key value c d a r Hd Hp; cbn [app] in Hp.
  - exists d. split; [done|]. intros b Hb. simpl.
    destruct parts as [|part rest]; cbn [app] in Hp.
    + injection Hp as -> _. simpl in Hd. injection Hd as <-. by apply get_setitem_ne.
    + injection Hp as -> _. rewrite replace_key_loop_cons in Hd.
      destruct (replace_key_loop rest key value (table_at c a)) as [inner'| |];
        simpl in Hd; try done.
      injection Hd as <-. by apply get_setitem_ne.
  - destruct parts as [|part rest]; cbn [app] in Hp.
    { injection Hp as _ Hp. by destruct l. }
    injection Hp as -> Hp. rewrite replace_key_loop_cons in Hd.
    destruct (replace_key_loop rest key value (table_at c x)) as [inner'| |] eqn:Hin;
      simpl in Hd; try done.
    injection Hd as <-.
    destruct (IH rest key value _ inner' a r Hin Hp) as (t & Ht & Hother).
    exists t. split.
    + cbn [tomlkit.table_path]. by rewrite get_setitem.
    + intros b Hb. rewrite (Hother b Hb). apply table_path_table_at.
Qed.

(** X4.  What the structured edit keeps and what it drops.  In the edited
    document the keys of the path [section.key] before any of its keys [a]
    lead through tables to a table [t].  Beside [a], [t] holds what the
    original held at that place when the original led there through tables
    too.  When the original met something else on the way (nothing, a
    scalar, an array, an inline table, a table declared in separated
    places), the loop put a new, empty table there, and [t] holds nothing
    beside the path: the entries under what was replaced are gone. *)
Theorem replace_key_loop_leaves_other_entries (parts : list string) (key value : string)
    (c d : tomlkit.Container) (l : list string) (a : string) (r : list string) :
  replace_key_loop parts key value c = Return d ->
  parts ++ [key] = l ++ a :: r ->
  exists t,
    tomlkit.table_path d l = Some t /\
    forall b, b <> a ->
      tomlkit.get t b = match tomlkit.table_path c l with
                        | Some t0 => tomlkit.get t0 b
                        | None => None
                        end.
Proof. apply replace_key_loop_frame. Qed.

Lemma replace_key_loop_leaves_other_entries_witness :
  exists t,
    tomlkit.table_path
      {[ "tool" := tomlkit.ITable
           {[ "uv" := tomlkit.ITable {[ "exclude-newer" := tomlkit.IString "now" ]} ]} ]}
      ["tool"] = Some t /\
    forall b, b <> "uv" ->
      tomlkit.get t b
      = match tomlkit.table_path
                {[ "tool" := tomlkit.IInlineTable {[ "a" := tomlkit.IInteger 1 ]} ]}
                ["tool"] with
        | Some t0 => tomlkit.get t0 b
        | None => None
        end.
Proof.
  apply (replace_key_loop_leaves_other_entries (split "." "tool.uv") "exclude-newer" "now"
           {[ "tool" := tomlkit.IInlineTable {[ "a" := tomlkit.IInteger 1 ]} ]} _
           ["tool"] "uv" ["exclude-newer"]);
    [by vm_compute|reflexivity].
Defined.

(** An entry beside the path is kept under a table and lost under an inline
    table. *)
Example replace_key_loop_keeps_the_name :
  replace_key_loop (split "." "project") "version" "1.2.4" (manifest_document "1.2.3")
  = Return (manifest_document "1.2.4").
Proof. by vm_compute. Qed.

Example replace_key_loop_drops_inline_entries :
  replace_key_loop (split "." "tool.uv") "exclude-newer" "now"
    {[ "tool" := tomlkit.IInlineTable {[ "a" := tomlkit.IInteger 1 ]} ]}
  = Return {[ "tool" := tomlkit.ITable
                {[ "uv" := tomlkit.ITable {[ "exclude-newer" := tomlkit.IString "now" ]} ]} ]}.
Proof. by vm_compute. Qed.

Lemma version_and_exclude_newer_are_both_set_aux (doc : tomlkit.Container)
    (bumped_version now : string) :
  exists doc1 doc2,
    replace_key_loop (split "." "project") "version" bumped_version doc = Return doc1 /\
    replace_key_loop (split "." "tool.uv") "exclude-newer" now doc1 = Return doc2 /\
    tomlkit.lookup_path doc2 ["project"] "version" = Some (tomlkit.IString bumped_version) /\
    tomlkit.lookup_path doc2 ["tool"; "uv"] "exclude-newer" = Some (tomlkit.IString now) /\
    forall other, other <> "project" -> other <> "tool" ->
      tomlkit.get doc2 other = tomlkit.get doc other.
Proof.
  destruct (replace_key_loop_returns (split "." "project") "version" bumped_version doc)
    as (doc1 & H1 & Hv & Hother1).
  destruct (replace_key_loop_returns (split "." "tool.uv") "exclude-newer" now doc1)
    as (doc2 & H2 & Hn & Hother2).
  exists doc1, doc2. repeat split; try done.
  - change (split "." "project") with ["project"] in Hv.
    cbn [tomlkit.lookup_path] in Hv |- *.
    by rewrite (Hother2 "project").
  - intros other Hp Ht. rewrite Hother2 by done. by apply Hother1.
Qed.

(** X5.  The two edits [update_pyproject_version] makes on a document do
    not disturb each other: after [project.version] and then
    [tool.uv.exclude-newer] are set, both hold their new values, and every
    top-level entry other than [project] and [tool] is what it was. *)
Theorem version_and_exclude_newer_are_both_set (doc : tomlkit.Container)
    (bumped_version now : string) :
  exists doc1 doc2,
    replace_key_loop (split "." "project") "version" bumped_version doc = Return doc1 /\
    replace_key_loop (split "." "tool.uv") "exclude-newer" now doc1 = Return doc2 /\
    tomlkit.lookup_path doc2 ["project"] "version" = Some (tomlkit.IString bumped_version) /\
    tomlkit.lookup_path doc2 ["tool"; "uv"] "exclude-newer" = Some (tomlkit.IString now) /\
    forall other, other <> "project" -> other <> "tool" ->
      tomlkit.get doc2 other = tomlkit.get doc other.
Proof. apply version_and_exclude_newer_are_both_set_aux. Qed.

Lemma replace_key_loop_again parts key v1 v2 : forall c d1,
  replace_key_loop parts key v1 c = Return d1 ->
  replace_key_loop parts key v2 d1 = replace_key_loop parts key v2 c.
Proof.
  induction parts as [|part rest IH]; intros c d1 H1.
  - simpl in *. injection H1 as <-. by rewrite setitem_setitem.
  - rewrite replace_key_loop_cons in H1. rewrite !replace_key_loop_cons.
    destruct (replace_key_loop rest key v1 (table_at c part)) as [inner1| |] eqn:Hin;
      simpl in H1; try done.
    injection H1 as <-.
    assert (table_at (tomlkit.setitem c part (tomlkit.ITable inner1)) part = inner1) as ->.
    { unfold table_at. by rewrite get_setitem. }
    rewrite (IH _ _ Hin).
    destruct (replace_key_loop rest key v2 (table_at c part)); simpl; try done.
    by rewrite setitem_setitem.
Qed.

(** X6.  The last edit of a key wins: after the key was set to one value,
    setting it to another gives the document that setting it to the other
    at once gives; so setting it to the same value again changes nothing. *)
Theorem replace_key_loop_last_edit_wins (parts : list string) (key v1 v2 : string)
    (c d1 : tomlkit.Container) :
  replace_key_loop parts key v1 c = Return d1 ->
  replace_key_loop parts key v2 d1 = replace_key_loop parts key v2 c /\
  replace_key_loop parts key v1 d1 = Return d1.
Proof.
  intros H1. split; [apply (replace_key_loop_again parts key v1 v2 c d1 H1)|].
  by rewrite (replace_key_loop_again parts key v1 v1 c d1 H1).
Qed.

Lemma replace_key_loop_last_edit_wins_witness :
  replace_key_loop ["project"] "version" "1.2.5" (manifest_document "1.2.4")
  = replace_key_loop ["project"] "version" "1.2.5" (manifest_document "1.2.3") /\
  replace_key_loop ["project"] "version" "1.2.4" (manifest_document "1.2.4")
  = Return (manifest_document "1.2.4").
Proof.
  apply (replace_key_loop_last_edit_wins ["project"] "version" "1.2.4" "1.2.5"
           (manifest_document "1.2.3") (manifest_document "1.2.4")).
  by vm_compute.
Defined.

(** X7.  The structured edit removes no top-level key and adds at most
    one: the keys of the document after it are the keys it had and the
    first key of the path. *)
Theorem replace_key_loop_keeps_the_keys (parts : list string) (key value : string)
    (c d : tomlkit.Container) :
  replace_key_loop parts key value c = Return d ->
  dom d = {[ hd key parts ]} ∪ dom c.
Proof.
  destruct parts as [|part rest]; simpl hd.
  - simpl. intros [= <-]. apply dom_insert_L.
  - rewrite replace_key_loop_cons.
    destruct (replace_key_loop rest key value (table_at c part)); simpl; try done.
    intros [= <-]. apply dom_insert_L.
Qed.

Lemma replace_key_loop_keeps_the_keys_witness :
  dom (updated_document "1.2.3" "now") = {[ "tool" ]} ∪ dom (manifest_document "1.2.3").
Proof.
  apply (replace_key_loop_keeps_the_keys (split "." "tool.uv") "exclude-newer" "now"
           (manifest_document "1.2.3")).
  by vm_compute.
Defined.

(** ** An update that returned *)

Lemma copy_lines_Return E tmp v src : forall i replaced w w' t,
  copy_lines E tmp v i replaced src w = (Return tt, w') ->
  w !! tmp = Some t ->
  w' = <[tmp := t +:+ join (init_lines v replaced src)]> w.
Proof.
  induction src as [|l src IH]; intros i replaced w w' t; simpl;
    rewrite io_bind_run, may_fail_run;
    (destruct (read_error (errors E) i); [done|]).
  - intros [= <-] Hw. by rewrite app_empty_r, insert_id.
  - destruct (negb replaced && _);
      rewrite io_bind_run; unfold file_write;
      rewrite io_bind_run, may_fail_run;
      (destruct (write_error (errors E) i); [done|]);
      intros H Hw; rewrite Hw in H; simpl in H;
      rewrite (IH _ _ _ _ _ H (lookup_insert_eq _ _ _));
      by rewrite insert_insert_eq, app_assoc'.
Qed.

(** The handler of a failed update never returns. *)
Lemma handler_does_not_return E tmp (report : string) w r w' :
  (_ ← try_except (os_remove E tmp) (fun _ => mret tt);
   lift (report_error_and_exit report)) w = (r, w') ->
  r <> Return tt.
Proof.
  rewrite io_bind_run.
  destruct (try_except (os_remove E tmp) (fun _ => mret tt) w) as [[| |] w0];
    by intros [= <- <-].
Qed.

Lemma init_try_block_Return E tmp v w w' t :
  init_try_block E tmp v w = (Return tt, w') ->
  w !! tmp = Some t -> tmp <> init_path E ->
  exists text,
    w !! init_path E = Some text /\
    w' = <[init_path E := t +:+ join (init_lines v false (lines text))]> (delete tmp w).
Proof.
  unfold init_try_block. rewrite io_bind_run, may_fail_run.
  destruct (fdopen_error (errors E)); [done|].
  rewrite io_bind_run. unfold open_read. rewrite io_bind_run, may_fail_run.
  destruct (open_error (errors E)); [done|].
  destruct (w !! init_path E) as [text|] eqn:Hinit; [|done].
  rewrite io_bind_run.
  destruct (copy_lines E tmp v 0 false (lines text) w) as [[[]| |] w1] eqn:Hc; try done.
  rewrite io_bind_run, may_fail_run.
  destruct (close_error (errors E)); [done|].
  unfold os_replace. rewrite io_bind_run, may_fail_run.
  destruct (replace_error (errors E)); [done|].
  intros H Ht Hne. rewrite (copy_lines_Return _ _ _ _ _ _ _ _ _ Hc Ht) in H.
  rewrite lookup_insert_eq in H. injection H as <-.
  exists text. split; [done|]. by rewrite delete_insert_eq.
Qed.

Lemma update_init_version_Return E v w w' :
  update_init_version E v w = (Return tt, w') ->
  exists text,
    w !! init_path E = Some text /\
    w' = <[init_path E := join (init_lines v false (lines text))]> w.
Proof.
  unfold update_init_version. rewrite io_bind_run.
  destruct (mkstemp E "__init__." ".tmp" (module_dir E) w) as [[tmp| |] w1] eqn:Hmk;
    try done.
  apply mkstemp_Return in Hmk as (Hfree & -> & rnd & ->).
  unfold try_except at 1.
  destruct (init_try_block E _ v _) as [[[]| |] w2] eqn:Hb; [|by intros ?%handler_does_not_return|done].
  intros [= <-].
  apply (init_try_block_Return _ _ _ _ _ "") in Hb as (text & Htext & ->);
    [|apply lookup_insert_eq|apply init_tmp_ne].
  rewrite lookup_insert_ne in Htext by apply init_tmp_ne.
  exists text. split; [done|]. by rewrite delete_insert_eq, delete_id.
Qed.

(** X8.  Whenever [update_init_version] returns, whatever the environment:
    [__init__.py] was there, it now holds the lines it held with the first
    line that matches the pattern replaced by the new assignment line, no
    other file has changed and no temporary file is left. *)
Theorem update_init_version_returned (E : environment) (v : string)
    (w w' : gmap string string) :
  update_init_version E v w = (Return tt, w') ->
  exists text,
    w !! init_path E = Some text /\
    w' !! init_path E = Some (join (init_lines v false (lines text))) /\
    (forall p, p <> init_path E -> w' !! p = w !! p).
Proof.
  intros (text & Htext & ->)%update_init_version_Return.
  exists text. split; [done|]. split; [apply lookup_insert_eq|].
  intros p Hp. by rewrite lookup_insert_ne.
Qed.

Lemma update_init_version_returned_witness :
  exists text,
    example_files !! init_path example_environment = Some text /\
    (<["src/asf/example/__init__.py" := init_text "1.2.4"]> example_files)
      !! init_path example_environment
    = Some (join (init_lines "1.2.4" false (lines text))) /\
    (forall p, p <> init_path example_environment ->
       (<["src/asf/example/__init__.py" := init_text "1.2.4"]> example_files) !! p
       = example_files !! p).
Proof.
  apply (update_init_version_returned example_environment "1.2.4" example_files).
  by vm_compute.
Defined.

Lemma replace_key_in_section_Return E text section key value out :
  replace_key_in_section E text section key value = Return out ->
  exists doc d,
    toml_parse E text = inr doc /\
    replace_key_loop (split "." section) key value doc = Return d /\
    out = toml_dumps E d.
Proof.
  pose proof (replace_key_in_section_result E text section key value) as H.
  destruct (toml_parse E text) as [e|doc]; [by rewrite H|].
  destruct H as (d & Hd & ->). intros [= <-]. by exists doc, d.
Qed.

Lemma pyproject_try_block_Return E tmp v w w' t :
  pyproject_try_block E tmp v w = (Return tt, w') ->
  w !! tmp = Some t ->
  exists text doc d1 doc' d2,
    w !! pyproject_path = Some text /\
    toml_parse E text = inr doc /\
    replace_key_loop (split "." "project") "version" v doc = Return d1 /\
    toml_parse E (toml_dumps E d1) = inr doc' /\
    replace_key_loop (split "." "tool.uv") "exclude-newer" (utcnow E) doc' = Return d2 /\
    w' = <[pyproject_path := t +:+ toml_dumps E d2]> (delete tmp w).
Proof.
  unfold pyproject_try_block. rewrite io_bind_run, may_fail_run.
  destruct (fdopen_error (errors E)); [done|].
  rewrite io_bind_run. unfold open_read. rewrite io_bind_run, may_fail_run.
  destruct (open_error (errors E)); [done|].
  destruct (w !! pyproject_path) as [text|] eqn:Hpy; [|done].
  rewrite io_bind_run, may_fail_run.
  destruct (read_error (errors E) 0); [done|].
  rewrite io_bind_run. unfold lift at 1.
  destruct (replace_key_in_section E text "project" "version" v) as [c1| |] eqn:H1;
    try done.
  rewrite io_bind_run. unfold lift at 1.
  destruct (replace_key_in_section E c1 "tool.uv" "exclude-newer" (utcnow E))
    as [c2| |] eqn:H2; try done.
  apply replace_key_in_section_Return in H1 as (doc & d1 & Hdoc & Hd1 & ->).
  apply replace_key_in_section_Return in H2 as (doc' & d2 & Hdoc' & Hd2 & ->).
  rewrite io_bind_run. unfold file_write. rewrite io_bind_run, may_fail_run.
  destruct (write_error (errors E) 0); [done|].
  rewrite io_bind_run, may_fail_run.
  destruct (close_error (errors E)); [done|].
  unfold os_replace. rewrite io_bind_run, may_fail_run.
  destruct (replace_error (errors E)); [done|].
  rewrite lookup_insert_eq. intros [= <-] Ht. rewrite Ht. simpl.
  exists text, doc, d1, doc', d2. repeat (split; [done|]).
  by rewrite delete_insert_eq.
Qed.

Lemma update_pyproject_version_Return E v w w' :
  update_pyproject_version E v w = (Return tt, w') ->
  exists text doc d1 doc' d2,
    w !! pyproject_path = Some text /\
    toml_parse E text = inr doc /\
    replace_key_loop (split "." "project") "version" v doc = Return d1 /\
    toml_parse E (toml_dumps E d1) = inr doc' /\
    replace_key_loop (split "." "tool.uv") "exclude-newer" (utcnow E) doc' = Return d2 /\
    w' = <[pyproject_path := toml_dumps E d2]> w.
Proof.
  unfold update_pyproject_version. rewrite io_bind_run.
  destruct (mkstemp E "pyproject." ".tmp" "." w) as [[tmp| |] w1] eqn:Hmk; try done.
  apply mkstemp_Return in Hmk as (Hfree & -> & rnd & ->).
  unfold try_except at 1.
  destruct (pyproject_try_block E _ v _) as [[[]| |] w2] eqn:Hb; [| |done].
  2:{ destruct e as [message]. by intros ?%handler_does_not_return. }
  intros [= <-].
  apply (pyproject_try_block_Return _ _ _ _ _ "") in Hb
    as (text & doc & d1 & doc' & d2 & Htext & Hdoc & Hd1 & Hdoc' & Hd2 & ->);
    [|apply lookup_insert_eq].
  rewrite lookup_insert_ne in Htext by apply pyproject_tmp_ne.
  exists text, doc, d1, doc', d2. repeat (split; [done|]).
  by rewrite delete_insert_eq, delete_id.
Qed.

(** X9.  Whenever [update_pyproject_version] returns, whatever the
    environment: [pyproject.toml] was there and tomlkit read it; it now
    holds what tomlkit writes for a document whose [tool.uv.exclude-newer]
    is the time of the call, obtained from the document with the new
    [project.version] written and read again; no other file has changed and
    no temporary file is left.  When tomlkit reads back the document it
    wrote, the final document has the new [project.version] too. *)
Theorem update_pyproject_version_returned (E : environment) (v : string)
    (w w' : gmap string string) :
  update_pyproject_version E v w = (Return tt, w') ->
  exists text doc d1 doc' d2,
    w !! pyproject_path = Some text /\
    toml_parse E text = inr doc /\
    replace_key_loop (split "." "project") "version" v doc = Return d1 /\
    toml_parse E (toml_dumps E d1) = inr doc' /\
    replace_key_loop (split "." "tool.uv") "exclude-newer" (utcnow E) doc' = Return d2 /\
    w' !! pyproject_path = Some (toml_dumps E d2) /\
    (forall p, p <> pyproject_path -> w' !! p = w !! p) /\
    tomlkit.lookup_path d2 ["tool"; "uv"] "exclude-newer"
    = Some (tomlkit.IString (utcnow E)) /\
    (doc' = d1 ->
     tomlkit.lookup_path d2 ["project"] "version" = Some (tomlkit.IString v)).
Proof.
  intros (text & doc & d1 & doc' & d2 & Htext & Hdoc & Hd1 & Hdoc' & Hd2 & ->)
    %update_pyproject_version_Return.
  exists text, doc, d1, doc', d2. repeat (split; [done|]).
  split; [apply lookup_insert_eq|]. split; [intros p Hp; by rewrite lookup_insert_ne|].
  destruct (version_and_exclude_newer_are_both_set_aux doc v (utcnow E))
    as (d1' & d2' & Hd1' & Hd2' & Hv & Hn & _).
  split.
  - destruct (replace_key_loop_returns (split "." "tool.uv") "exclude-newer" (utcnow E) doc')
      as (d & Hd & Hl & _). rewrite Hd in Hd2. by injection Hd2 as <-.
  - intros ->. rewrite Hd1 in Hd1'. injection Hd1' as <-.
    rewrite Hd2 in Hd2'. by injection Hd2' as <-.
Qed.

Lemma update_pyproject_version_returned_witness :
  exists text doc d1 doc' d2,
    example_files !! pyproject_path = Some text /\
    toml_parse example_environment text = inr doc /\
    replace_key_loop (split "." "project") "version" "1.2.4" doc = Return d1 /\
    toml_parse example_environment (toml_dumps example_environment d1) = inr doc' /\
    replace_key_loop (split "." "tool.uv") "exclude-newer" (utcnow example_environment) doc'
    = Return d2 /\
    (update_pyproject_version example_environment "1.2.4" example_files).2 !! pyproject_path
    = Some (toml_dumps example_environment d2) /\
    (forall p, p <> pyproject_path ->
       (update_pyproject_version example_environment "1.2.4" example_files).2 !! p
       = example_files !! p) /\
    tomlkit.lookup_path d2 ["tool"; "uv"] "exclude-newer"
    = Some (tomlkit.IString (utcnow example_environment)) /\
    (doc' = d1 ->
     tomlkit.lookup_path d2 ["project"] "version" = Some (tomlkit.IString "1.2.4")).
Proof.
  apply (update_pyproject_version_returned example_environment "1.2.4" example_files).
  by vm_compute.
Defined.

(** ** A successful update of the manifest *)

Lemma replace_key_in_section_ok E text section key value doc d :
  toml_parse E text = inr doc ->
  replace_key_loop (split "." section) key value doc = Return d ->
  replace_key_in_section E text section key value = Return (toml_dumps E d).
Proof.
  intros Hdoc Hd. unfold replace_key_in_section. rewrite Hdoc. simpl. by rewrite Hd.
Qed.

Lemma update_pyproject_version_ok E v w text doc d1 doc' d2 tmp w1 :
  no_failure (errors E) ->
  mkstemp E "pyproject." ".tmp" "." w = (Return tmp, w1) ->
  w !! pyproject_path = Some text ->
  toml_parse E text = inr doc ->
  replace_key_loop (split "." "project") "version" v doc = Return d1 ->
  toml_parse E (toml_dumps E d1) = inr doc' ->
  replace_key_loop (split "." "tool.uv") "exclude-newer" (utcnow E) doc' = Return d2 ->
  update_pyproject_version E v w = (Return tt, <[pyproject_path := toml_dumps E d2]> w).
Proof.
  intros (Hfd & Hop & Hrd & Hwr & Hcl & Hrp) Hmk Htext Hdoc Hd1 Hdoc' Hd2.
  unfold update_pyproject_version. rewrite io_bind_run, Hmk.
  apply mkstemp_Return in Hmk as (Hfree & -> & rnd & ->).
  unfold try_except, pyproject_try_block, open_read, os_replace, file_write.
  rewrite Hfd, Hop, Hcl, Hrp, Hrd, Hwr. simpl.
  do 3 (rewrite io_bind_run; simpl).
  rewrite lookup_insert_ne, Htext by apply pyproject_tmp_ne.
  do 2 (rewrite io_bind_run; simpl).
  rewrite (replace_key_in_section_ok E text "project" "version" v doc d1) by done.
  rewrite io_bind_run; simpl.
  rewrite (replace_key_in_section_ok E (toml_dumps E d1) "tool.uv" "exclude-newer"
             (utcnow E) doc' d2) by done.
  repeat (rewrite io_bind_run; simpl).
  rewrite !lookup_insert_eq. simpl.
  by rewrite !delete_insert_eq, delete_id.
Qed.

(** X10.  When no I/O step fails and tomlkit reads the manifest and reads
    back what it wrote for the document with the new version,
    [update_pyproject_version] returns, and [pyproject.toml] holds what
    tomlkit writes for the document with both fields set; nothing else
    changes. *)
Theorem update_pyproject_version_succeeds (E : environment) (v text tmp : string)
    (doc d1 doc' d2 : tomlkit.Container) (w w1 : gmap string string) :
  no_failure (errors E) ->
  mkstemp E "pyproject." ".tmp" "." w = (Return tmp, w1) ->
  w !! pyproject_path = Some text ->
  toml_parse E text = inr doc ->
  replace_key_loop (split "." "project") "version" v doc = Return d1 ->
  toml_parse E (toml_dumps E d1) = inr doc' ->
  replace_key_loop (split "." "tool.uv") "exclude-newer" (utcnow E) doc' = Return d2 ->
  update_pyproject_version E v w = (Return tt, <[pyproject_path := toml_dumps E d2]> w).
Proof. apply update_pyproject_version_ok. Qed.

Lemma update_pyproject_version_succeeds_witness :
  update_pyproject_version example_environment "1.2.4" example_files
  = (Return tt,
     <[pyproject_path :=
         manifest_text "1.2.4" +:+ line "" +:+ line "[tool.uv]"
         +:+ line ("exclude-newer = " +:+ quoted "2025-01-01T00:00:00Z")]> example_files).
Proof.
  apply (update_pyproject_version_succeeds example_environment "1.2.4"
           (manifest_text "1.2.3-dev5") "./pyproject.k3x9q2.tmp"
           (manifest_document "1.2.3-dev5") (manifest_document "1.2.4")
           (manifest_document "1.2.4")
           (updated_document "1.2.4" "2025-01-01T00:00:00Z")
           example_files (<["./pyproject.k3x9q2.tmp" := ""]> example_files));
    first [by repeat split | reflexivity].
Defined.

(** ** From the command line to the bump *)

(** What [parse_version] prints when it exits. *)
Lemma parse_version_exit E s code msg :
  parse_version E s = SystemExit code msg ->
  code = 2%Z /\ msg = "error: unsupported version format: " +:+ s.
Proof.
  destruct (Re.fullmatch version_re s) as [m|] eqn:Hm.
  - destruct (parse_version_grammar E s) as [[_ (p & -> & _)]|[e ->]]; [|done..].
    apply fullmatch_version_grammar. by eexists.
  - unfold parse_version. rewrite Hm. by intros [= <- <-].
Qed.

(** What [read_head_version] prints when it exits: one of its three
    reports, or the report of [parse_version]. *)
Lemma read_head_version_exit E repo code msg :
  read_head_version E repo = SystemExit code msg ->
  code = 2%Z /\
  (msg = "error: a working tree, not a bare git repository, is required" \/
   msg = "error: pyproject.toml is in HEAD, but not a regular file" \/
   msg = "error: version missing in pyproject.toml in HEAD" \/
   exists s, msg = "error: unsupported version format: " +:+ s).
Proof.
  unfold read_head_version.
  destruct (is_bare repo); [intros [= <- <-]; by eauto|].
  destruct (revparse_single repo "HEAD:pyproject.toml") as [e|[bytes| | |]];
    try done; try (intros [= <- <-]; by eauto 6).
  destruct (utf8_decode E bytes) as [|content]; [done|]. simpl.
  destruct (toml_parse E content) as [|data]; [done|]. simpl.
  destruct (project_version data) as [hv| |] eqn:Hp; simpl; try done.
  - destruct hv as [[s| | | | | |]|]; try (intros [= <- <-]; by eauto 6).
    intros [-> ->]%parse_version_exit. by eauto 8.
  - unfold project_version in Hp.
    by destruct (tomlkit.get data "project") as [[]|].
Qed.

Lemma HeadVersion_str_no_exit E p code msg : HeadVersion_str E p <> SystemExit code msg.
Proof. rewrite HeadVersion_str_outcome. by destruct (printable_version E p). Qed.

Lemma calculate_bumped_version_exit E repository mode code msg :
  mode <> SPECIFIC ->
  calculate_bumped_version E repository mode None = SystemExit code msg ->
  read_head_version E repository = SystemExit code msg.
Proof.
  intros Hmode. unfold calculate_bumped_version.
  destruct mode; [| |done];
    (destruct (read_head_version E repository) as [p| |]; simpl;
     [|done|by intros [= -> ->]]);
    destruct (dev p); simpl;
    match goal with
    | |- context [HeadVersion_str E ?v] =>
        pose proof (HeadVersion_str_no_exit E v) as Hne;
        destruct (HeadVersion_str E v) as [t|e|c m]; [done|done|by destruct (Hne c m)]
    end.
Qed.

(** X11.  What [bump_mode_from_args] hands to [calculate_bumped_version]
    never lacks the text SPECIFIC needs: the mode is SPECIFIC exactly when
    a text comes with it, so the bump never reports "specific version
    required"; the release flag wins over the dev flag, which wins over the
    text; and with no flag and no text the function reports that one is
    required. *)
Theorem bump_mode_from_args_gives_the_text (args : Namespace) (E : environment)
    (repository : Repository) :
  match bump_mode_from_args args with
  | Return ms =>
      (ms.1 = SPECIFIC <-> is_Some ms.2) /\
      calculate_bumped_version E repository ms.1 ms.2
      <> SystemExit 2 "error: specific version required" /\
      (bump_release args = true -> ms = (RELEASE, None)) /\
      (bump_release args = false -> bump_dev args = true -> ms = (DEV, None)) /\
      (bump_release args = false -> bump_dev args = false ->
       ms = (SPECIFIC, bump_specific args))
  | r =>
      r = SystemExit 2 "error: --bump-dev, --bump-release, or --bump-specific is required" /\
      bump_release args = false /\ bump_dev args = false /\ bump_specific args = None
  end.
Proof.
  assert (Hnot : forall mode, mode <> SPECIFIC ->
    calculate_bumped_version E repository mode None
    <> SystemExit 2 "error: specific version required").
  { intros mode Hmode [_ H]%calculate_bumped_version_exit%read_head_version_exit; [|done].
    destruct H as [H|[H|[H|[s H]]]]; discriminate H. }
  unfold bump_mode_from_args.
  destruct (bump_release args).
  { cbn [fst snd]. split; [split; [done|by intros [? ?]]|].
    split; [by apply Hnot|]. by repeat split. }
  destruct (bump_dev args).
  { cbn [fst snd]. split; [split; [done|by intros [? ?]]|].
    split; [by apply Hnot|]. by repeat split. }
  destruct (bump_specific args) as [v|]; unfold report_error_and_exit; simpl.
  - split; [split; [done|by eexists]|]. split; [done|]. by repeat split.
  - by repeat split.
Qed.

(** ** The check of the project root *)

Lemma lift_run {A} (r : result A) w : lift r w = (r, w).
Proof. reflexivity. Qed.

Lemma project_root_or_exit_run E path name w :
  project_root_or_exit E path name w =
  (match w !! path with
   | None =>
       report_error_and_exit ("must run from project root with pyproject.toml for " +:+ name)
   | Some text =>
       match open_error (errors E), read_error (errors E) 0 with
       | Some e, _ => Raise e
       | None, Some e => Raise e
       | None, None =>
           match toml_parse E text with
           | inl e => Raise e
           | inr data =>
               match project_name data with
               | Return found =>
                   if name_differs found name then
                     report_error_and_exit
                       ("pyproject.toml does not belong to '" +:+ name +:+ "'")
                   else Return tt
               | Raise e => Raise e
               | SystemExit code msg => SystemExit code msg
               end
           end
       end
   end, w).
Proof.
  unfold project_root_or_exit.
  destruct (w !! path) as [text|] eqn:Hw; [|done].
  rewrite io_bind_run. unfold open_read. rewrite io_bind_run, may_fail_run.
  destruct (open_error (errors E)); [done|]. rewrite Hw.
  rewrite io_bind_run, may_fail_run.
  destruct (read_error (errors E) 0); [done|].
  rewrite io_bind_run, lift_run.
  destruct (toml_parse E text) as [e|data]; [done|]. simpl.
  rewrite io_bind_run, lift_run.
  destruct (project_name data) as [found| |]; try done.
  by destruct (name_differs found name).
Qed.

Lemma name_differs_false found name :
  name_differs found name = false <-> found = Some (tomlkit.IString name).
Proof.
  destruct found as [[s| | | | | |]|]; simpl; try (split; [done|by intros [=]]).
  rewrite negb_false_iff, String.eqb_eq. split; [by intros ->|by intros [= ->]].
Qed.

(** X12.  [project_root_or_exit] writes nothing.  It returns exactly when
    the manifest is there, is opened and read, tomlkit reads it, and the
    name of its project table is the string expected; a missing manifest
    and any other name (or none) end in the two reports of the function. *)
Theorem project_root_or_exit_cases (E : environment) (path name : string)
    (w : gmap string string) :
  (project_root_or_exit E path name w).2 = w /\
  ((project_root_or_exit E path name w).1 = Return tt <->
   exists text data,
     w !! path = Some text /\
     open_error (errors E) = None /\ read_error (errors E) 0 = None /\
     toml_parse E text = inr data /\
     project_name data = Return (Some (tomlkit.IString name))) /\
  (w !! path = None ->
   (project_root_or_exit E path name w).1
   = SystemExit 2 ("error: must run from project root with pyproject.toml for " +:+ name)) /\
  (forall text data found,
     w !! path = Some text ->
     open_error (errors E) = None -> read_error (errors E) 0 = None ->
     toml_parse E text = inr data ->
     project_name data = Return found ->
     found <> Some (tomlkit.IString name) ->
     (project_root_or_exit E path name w).1
     = SystemExit 2 ("error: pyproject.toml does not belong to '" +:+ name +:+ "'")).
Proof.
  rewrite project_root_or_exit_run. simpl. split; [done|]. split; [|split].
  - split.
    + destruct (w !! path) as [text|]; [|done].
      destruct (open_error (errors E)); [done|].
      destruct (read_error (errors E) 0); [done|].
      destruct (toml_parse E text) as [|data] eqn:Hdata; [done|].
      destruct (project_name data) as [found| |] eqn:Hfound; try done.
      destruct (name_differs found name) eqn:Hn; [done|].
      apply name_differs_false in Hn as ->. intros _. by exists text, data.
    + intros (text & data & -> & -> & -> & -> & ->).
      by rewrite (proj2 (name_differs_false _ name) eq_refl).
  - by intros ->.
  - intros text data found -> -> -> -> -> Hne.
    destruct (name_differs found name) eqn:Hn; [done|].
    by apply name_differs_false in Hn.
Qed.

Lemma project_root_or_exit_frame E path name w r w' :
  project_root_or_exit E path name w = (r, w') -> w' = w.
Proof. rewrite project_root_or_exit_run. by intros [= _ <-]. Qed.

(** ** A whole run *)

Lemma last_char_app s t : t <> "" -> last_char (s +:+ t) = last_char t.
Proof.
  intros Ht. induction s as [|a s IH]; [done|]. rewrite app_cons.
  rewrite last_char_cons; [done|]. destruct s; [by destruct t|done].
Qed.

Lemma init_path_ne_pyproject E : init_path E <> pyproject_path.
Proof.
  intros H%(f_equal last_char). unfold init_path in H.
  rewrite last_char_app in H by done. discriminate H.
Qed.

Lemma init_path_ne_pyproject_tmp E r :
  init_path E <> "." +:+ "/" +:+ "pyproject." +:+ r +:+ ".tmp".
Proof.
  intros H%(f_equal last_char). unfold init_path in H.
  rewrite last_char_app in H by done.
  rewrite <- !app_assoc', last_char_app in H by done. discriminate H.
Qed.

(** The steps of [run_using_args], in one equation. *)
Lemma run_using_args_run C args w :
  run_using_args C args w =
  if version args then (Return (VERSION, 0%Z), w)
  else
    match project_root_or_exit (at_step (base C) (check_errors C))
            (realpath C (joinpath (cwd C) "pyproject.toml")) PROJECT w with
    | (Return _, _) =>
        match current_repository C (cwd C) with
        | Return repository =>
            match bump_mode_from_args args with
            | Return ms =>
                match calculate_bumped_version (base C) repository ms.1 ms.2 with
                | Return hb =>
                    match update_init_version (at_step (base C) (init_errors C)) hb.2 w with
                    | (Return _, w1) =>
                        match update_pyproject_version
                                (at_step (base C) (pyproject_errors C)) hb.2 w1 with
                        | (Return _, w2) =>
                            match HeadVersion_str (base C) hb.1 with
                            | Return head_text =>
                                (Return (head_text +:+ " -> " +:+ hb.2, 0%Z), w2)
                            | Raise e => (Raise e, w2)
                            | SystemExit code msg => (SystemExit code msg, w2)
                            end
                        | (Raise e, w2) => (Raise e, w2)
                        | (SystemExit code msg, w2) => (SystemExit code msg, w2)
                        end
                    | (Raise e, w1) => (Raise e, w1)
                    | (SystemExit code msg, w1) => (SystemExit code msg, w1)
                    end
                | Raise e => (Raise e, w)
                | SystemExit code msg => (SystemExit code msg, w)
                end
            | Raise e => (Raise e, w)
            | SystemExit code msg => (SystemExit code msg, w)
            end
        | Raise e => (Raise e, w)
        | SystemExit code msg => (SystemExit code msg, w)
        end
    | (Raise e, _) => (Raise e, w)
    | (SystemExit code msg, _) => (SystemExit code msg, w)
    end.
Proof.
  unfold run_using_args. destruct (version args); [done|].
  rewrite io_bind_run.
  destruct (project_root_or_exit _ _ _ w) as [r0 w0] eqn:H0.
  apply project_root_or_exit_frame in H0 as ->.
  by destruct r0 as [[]| |].
Qed.

(** X13.  [run_using_args] touches no file before the new version is
    known: when the run leaves the file system different from what it
    found, [--version] was not given, the project root was accepted, the
    repository was opened, the bump mode was read and the bumped version
    was computed.  So a wrong directory, a missing repository, missing
    flags and an unreadable committed version leave every file as it was. *)
Theorem run_using_args_writes_after_the_bump (C : cli_environment) (args : Namespace)
    (w w' : gmap string string) (r : result (string * Z)) :
  run_using_args C args w = (r, w') ->
  w' <> w ->
  version args = false /\
  project_root_or_exit (at_step (base C) (check_errors C))
    (realpath C (joinpath (cwd C) "pyproject.toml")) PROJECT w = (Return tt, w) /\
  exists repository mode specific head bumped,
    current_repository C (cwd C) = Return repository /\
    bump_mode_from_args args = Return (mode, specific) /\
    calculate_bumped_version (base C) repository mode specific = Return (head, bumped).
Proof.
  rewrite run_using_args_run.
  destruct (version args); [by intros [= _ <-]|].
  destruct (project_root_or_exit _ _ _ w) as [r0 w0] eqn:H0.
  pose proof (project_root_or_exit_frame _ _ _ _ _ _ H0) as ->.
  destruct r0 as [[]| |]; try by intros [= _ <-].
  destruct (current_repository C (cwd C)) as [repository| |]; try by intros [= _ <-].
  destruct (bump_mode_from_args args) as [[mode specific]| |]; try by intros [= _ <-].
  destruct (calculate_bumped_version _ _ _ _) as [[head bumped]| |] eqn:Hc;
    try by intros [= _ <-].
  intros _ _. split; [done|]. split; [done|].
  by exists repository, mode, specific, head, bumped.
Qed.

Lemma run_using_args_writes_after_the_bump_witness :
  version {| bump_dev := false; bump_release := true; bump_specific := None;
             version := false |} = false /\
  project_root_or_exit (at_step (base example_cli) (check_errors example_cli))
    (realpath example_cli (joinpath (cwd example_cli) "pyproject.toml")) PROJECT
    example_files = (Return tt, example_files) /\
  exists repository mode specific head bumped,
    current_repository example_cli (cwd example_cli) = Return repository /\
    bump_mode_from_args {| bump_dev := false; bump_release := true; bump_specific := None;
                           version := false |} = Return (mode, specific) /\
    calculate_bumped_version (base example_cli) repository mode specific
    = Return (head, bumped).
Proof.
  apply (run_using_args_writes_after_the_bump example_cli
           {| bump_dev := false; bump_release := true; bump_specific := None;
              version := false |}
           example_files
           (run_using_args example_cli
              {| bump_dev := false; bump_release := true; bump_specific := None;
                 version := false |} example_files).2
           (run_using_args example_cli
              {| bump_dev := false; bump_release := true; bump_specific := None;
                 version := false |} example_files).1).
  - by destruct (run_using_args _ _ _).
  - intros H%(f_equal (fun m => m !! "src/asf/example/__init__.py")).
    vm_compute in H. discriminate H.
Defined.

Lemma mkstemp_outcome E pre suf dir w r w' :
  mkstemp E pre suf dir w = (r, w') ->
  (exists name, r = Return name) \/ ((exists e, r = Raise e) /\ w' = w).
Proof.
  unfold mkstemp. rewrite io_bind_run, may_fail_run.
  destruct (mkstemp_error (errors E)); [intros [= <- <-]; by eauto|].
  destruct (first_free dir pre suf (tmp_random E) w);
    intros [= <- <-]; by eauto.
Qed.

(** X14.  Nothing is rolled back.  When the constant has been rewritten and
    the update of [pyproject.toml] then fails, [__init__.py] keeps the new
    constant and [pyproject.toml] holds what it held before the run.  When
    the failure is inside the [try] the run ends with status 2 and the
    report that names the inconsistent state; when [mkstemp] cannot make
    the temporary file, which is outside the [try], its exception ends the
    run and nothing is reported. *)
Theorem run_using_args_keeps_the_first_update (C : cli_environment) (args : Namespace)
    (w w1 w2 : gmap string string) (repository : Repository) (mode : BumpMode)
    (specific : option string) (head : HeadVersion) (bumped : string)
    (r2 : result unit) :
  version args = false ->
  project_root_or_exit (at_step (base C) (check_errors C))
    (realpath C (joinpath (cwd C) "pyproject.toml")) PROJECT w = (Return tt, w) ->
  current_repository C (cwd C) = Return repository ->
  bump_mode_from_args args = Return (mode, specific) ->
  calculate_bumped_version (base C) repository mode specific = Return (head, bumped) ->
  update_init_version (at_step (base C) (init_errors C)) bumped w = (Return tt, w1) ->
  update_pyproject_version (at_step (base C) (pyproject_errors C)) bumped w1 = (r2, w2) ->
  r2 <> Return tt ->
  (exists text,
     w !! init_path (base C) = Some text /\
     w2 !! init_path (base C) = Some (join (init_lines bumped false (lines text))) /\
     w2 !! pyproject_path = w !! pyproject_path) /\
  ((exists cause,
      run_using_args C args w
      = (SystemExit 2 ("error: failed to update pyproject.toml: " +:+ cause
                       +:+ "; project may be in an inconsistent version state"), w2) /\
      exists tmp w1',
        mkstemp (at_step (base C) (pyproject_errors C)) "pyproject." ".tmp" "." w1
        = (Return tmp, w1')) \/
   (exists e,
      run_using_args C args w = (Raise e, w2) /\
      mkstemp (at_step (base C) (pyproject_errors C)) "pyproject." ".tmp" "." w1
      = (Raise e, w1))).
Proof.
  intros Hv H0 Hrepo Hms Hcalc Hinit Hpy Hr2.
  rewrite run_using_args_run, Hv, H0, Hrepo, Hms. simpl. rewrite Hcalc. simpl.
  rewrite Hinit, Hpy.
  apply update_init_version_Return in Hinit as (text & Htext & ->).
  destruct (mkstemp (at_step (base C) (pyproject_errors C)) "pyproject." ".tmp" "."
              (<[init_path (at_step (base C) (init_errors C)) :=
                   join (init_lines bumped false (lines text))]> w))
    as [rm wm] eqn:Hmk.
  destruct (mkstemp_outcome _ _ _ _ _ _ _ Hmk) as [[tmp ->]|[[e ->] ->]].
  - pose proof Hmk as (_ & _ & rnd & Hname)%mkstemp_Return.
    destruct (update_pyproject_version_failure _ _ _ _ _ _ _ Hmk Hpy Hr2)
      as ((cause & w3 & _ & ->) & Hsame & Hother & _).
    split.
    + exists text. split; [done|]. split.
      * rewrite Hother by (rewrite Hname; apply init_path_ne_pyproject_tmp).
        apply lookup_insert_eq.
      * rewrite Hsame. apply lookup_insert_ne, init_path_ne_pyproject.
    + left. exists cause. split; [done|]. by exists tmp, wm.
  - unfold update_pyproject_version in Hpy. rewrite io_bind_run, Hmk in Hpy.
    injection Hpy as <- <-. split.
    + exists text. split; [done|]. split; [apply lookup_insert_eq|].
      apply lookup_insert_ne, init_path_ne_pyproject.
    + right. by exists e.
Qed.

Lemma run_using_args_keeps_the_first_update_witness :
  (exists text,
     example_files !! init_path (base full_disk_cli) = Some text /\
     (update_pyproject_version
        (at_step (base full_disk_cli) (pyproject_errors full_disk_cli)) "1.2.4"
        (update_init_version
           (at_step (base full_disk_cli) (init_errors full_disk_cli)) "1.2.4"
           example_files).2).2 !! init_path (base full_disk_cli)
     = Some (join (init_lines "1.2.4" false (lines text))) /\
     (update_pyproject_version
        (at_step (base full_disk_cli) (pyproject_errors full_disk_cli)) "1.2.4"
        (update_init_version
           (at_step (base full_disk_cli) (init_errors full_disk_cli)) "1.2.4"
           example_files).2).2 !! pyproject_path
     = example_files !! pyproject_path) /\
  ((exists cause,
      run_using_args full_disk_cli release_args example_files
      = (SystemExit 2 ("error: failed to update pyproject.toml: " +:+ cause
                       +:+ "; project may be in an inconsistent version state"),
         (update_pyproject_version
            (at_step (base full_disk_cli) (pyproject_errors full_disk_cli)) "1.2.4"
            (update_init_version
               (at_step (base full_disk_cli) (init_errors full_disk_cli)) "1.2.4"
               example_files).2).2) /\
      exists tmp w1',
        mkstemp (at_step (base full_disk_cli) (pyproject_errors full_disk_cli))
          "pyproject." ".tmp" "."
          (update_init_version
             (at_step (base full_disk_cli) (init_errors full_disk_cli)) "1.2.4"
             example_files).2
        = (Return tmp, w1')) \/
   (exists e,
      run_using_args full_disk_cli release_args example_files
      = (Raise e,
         (update_pyproject_version
            (at_step (base full_disk_cli) (pyproject_errors full_disk_cli)) "1.2.4"
            (update_init_version
               (at_step (base full_disk_cli) (init_errors full_disk_cli)) "1.2.4"
               example_files).2).2) /\
      mkstemp (at_step (base full_disk_cli) (pyproject_errors full_disk_cli))
        "pyproject." ".tmp" "."
        (update_init_version
           (at_step (base full_disk_cli) (init_errors full_disk_cli)) "1.2.4"
           example_files).2
      = (Raise e,
         (update_init_version
            (at_step (base full_disk_cli) (init_errors full_disk_cli)) "1.2.4"
            example_files).2))).
Proof.
  apply (run_using_args_keeps_the_first_update full_disk_cli release_args example_files
           (update_init_version
              (at_step (base full_disk_cli) (init_errors full_disk_cli)) "1.2.4"
              example_files).2
           _
           (repository_with (manifest_text "1.2.3")) RELEASE None
           (mkHeadVersion 1 2 3 None) "1.2.4"
           (update_pyproject_version
              (at_step (base full_disk_cli) (pyproject_errors full_disk_cli)) "1.2.4"
              (update_init_version
                 (at_step (base full_disk_cli) (init_errors full_disk_cli)) "1.2.4"
                 example_files).2).1).
  - reflexivity.
  - by vm_compute.
  - reflexivity.
  - reflexivity.
  - by vm_compute.
  - by vm_compute.
  - by destruct (update_pyproject_version _ _ _).
  - by vm_compute.
Defined.



(** ** How a run can end by itself *)

Lemma update_init_version_exit E v w code msg w' :
  update_init_version E v w = (SystemExit code msg, w') ->
  code = 2%Z /\ msg = "error: failed to update VERSION constant in __init__.py".
Proof.
  intros Hup.
  destruct (mkstemp E "__init__." ".tmp" (module_dir E) w) as [r1 w1] eqn:Hmk.
  destruct (mkstemp_outcome _ _ _ _ _ _ _ Hmk) as [[tmp ->]|[[e ->] ->]].
  - destruct (update_init_version_failure _ _ _ _ _ _ _ Hmk Hup) as (_ & Hr & _);
      [done|]. by injection Hr as -> ->.
  - unfold update_init_version in Hup. by rewrite io_bind_run, Hmk in Hup.
Qed.

Lemma update_pyproject_version_exit E v w code msg w' :
  update_pyproject_version E v w = (SystemExit code msg, w') ->
  code = 2%Z /\
  exists cause,
    msg = "error: failed to update pyproject.toml: " +:+ cause
          +:+ "; project may be in an inconsistent version state".
Proof.
  intros Hup.
  destruct (mkstemp E "pyproject." ".tmp" "." w) as [r1 w1] eqn:Hmk.
  destruct (mkstemp_outcome _ _ _ _ _ _ _ Hmk) as [[tmp ->]|[[e ->] ->]].
  - destruct (update_pyproject_version_failure _ _ _ _ _ _ _ Hmk Hup)
      as ((cause & w2 & _ & Hr) & _); [done|].
    injection Hr as -> ->. by eauto.
  - unfold update_pyproject_version in Hup. by rewrite io_bind_run, Hmk in Hup.
Qed.

Lemma project_root_or_exit_exit E path name w code msg w' :
  project_root_or_exit E path name w = (SystemExit code msg, w') ->
  code = 2%Z /\
  (msg = "error: must run from project root with pyproject.toml for " +:+ name \/
   msg = "error: pyproject.toml does not belong to '" +:+ name +:+ "'").
Proof.
  rewrite project_root_or_exit_run.
  destruct (w !! path) as [text|]; [|intros [= <- <- _]; by eauto].
  destruct (open_error (errors E)); [done|].
  destruct (read_error (errors E) 0); [done|].
  destruct (toml_parse E text) as [|data]; [done|].
  destruct (project_name data) as [found| |] eqn:Hfound.
  - destruct (name_differs found name); [intros [= <- <- _]; by eauto|done].
  - done.
  - unfold project_name in Hfound. by destruct (tomlkit.get data "project") as [[]|].
Qed.

(** X16.  Every way [run_using_args] ends the program by itself has exit
    status 2 and one of ten reports on standard error.  After the first
    eight no file has changed; the last two are those of the two updates.
    "specific version required" and "expected table" are not among them:
    no run reaches them. *)
Theorem run_using_args_exits (C : cli_environment) (args : Namespace)
    (w w' : gmap string string) (code : Z) (msg : string) :
  run_using_args C args w = (SystemExit code msg, w') ->
  code = 2%Z /\
  ((w' = w /\
    (msg = "error: must run from project root with pyproject.toml for asf-example" \/
     msg = "error: pyproject.toml does not belong to 'asf-example'" \/
     msg = "error: not inside a git repository" \/
     msg = "error: --bump-dev, --bump-release, or --bump-specific is required" \/
     msg = "error: a working tree, not a bare git repository, is required" \/
     msg = "error: pyproject.toml is in HEAD, but not a regular file" \/
     msg = "error: version missing in pyproject.toml in HEAD" \/
     exists s, msg = "error: unsupported version format: " +:+ s)) \/
   msg = "error: failed to update VERSION constant in __init__.py" \/
   exists cause,
     msg = "error: failed to update pyproject.toml: " +:+ cause
           +:+ "; project may be in an inconsistent version state").
Proof.
  rewrite run_using_args_run.
  destruct (version args); [done|].
  destruct (project_root_or_exit _ _ _ w) as [r0 w0] eqn:H0.
  destruct r0 as [[]|e|code0 msg0].
  2: done.
  2: { intros [= <- <- <-]. apply project_root_or_exit_exit in H0 as [-> [->| ->]];
       (split; [done|]); left; (split; [done|]); [by left|right; by left]. }
  unfold current_repository.
  destruct (discover_repository C (cwd C)) as [dir|];
    [|intros [= <- <- <-]; split; [done|]; left; split; [done|]; by eauto 10].
  destruct (open_repository C dir) as [e|repository]; [done|]. cbn [of_sum].
  destruct (bump_mode_from_args args) as [[mode specific]|e|code1 msg1] eqn:Hms.
  2: done.
  2: { intros [= <- <- <-]. revert Hms. unfold bump_mode_from_args.
       destruct (bump_release args); [done|]. destruct (bump_dev args); [done|].
       destruct (bump_specific args); [done|]. intros [= <- <-].
       split; [done|]. left. split; [done|]. by eauto 10. }
  cbn [fst snd].
  destruct (calculate_bumped_version (base C) repository mode specific)
    as [[head bumped]|e|code2 msg2] eqn:Hc.
  2: done.
  2: { intros [= <- <- <-].
       assert (specific = None /\ mode <> SPECIFIC) as [-> Hmode].
       { revert Hms. unfold bump_mode_from_args.
         destruct (bump_release args); [by intros [= <- <-]|].
         destruct (bump_dev args); [by intros [= <- <-]|].
         destruct (bump_specific args); [|done]. intros [= <- <-]. done. }
       apply calculate_bumped_version_exit in Hc; [|done].
       apply read_head_version_exit in Hc as [-> Hc].
       split; [done|]. left. split; [done|].
       destruct Hc as [->|[->|[->|[s ->]]]]; by eauto 10. }
  cbn [fst snd].
  destruct (update_init_version _ bumped w) as [[[]|e|code3 msg3] w1] eqn:Hinit.
  2: done.
  2: { intros [= <- <- <-]. apply update_init_version_exit in Hinit as [-> ->].
       split; [done|]. right. by left. }
  destruct (update_pyproject_version _ bumped w1) as [[[]|e|code4 msg4] w2] eqn:Hpy.
  - pose proof (HeadVersion_str_no_exit (base C) head) as Hne.
    destruct (HeadVersion_str (base C) head) as [t|e|c m]; [done|done|].
    by destruct (Hne c m).
  - done.
  - intros [= <- <- <-]. apply update_pyproject_version_exit in Hpy as [-> [cause ->]].
    split; [done|]. right. right. by exists cause.
Qed.

Lemma run_using_args_exits_witness :
  2%Z = 2%Z /\
  (((run_using_args full_disk_cli release_args example_files).2 = example_files /\
    ("error: failed to update pyproject.toml: [Errno 28] No space left on device; project may be in an inconsistent version state"
     = "error: must run from project root with pyproject.toml for asf-example" \/
     "error: failed to update pyproject.toml: [Errno 28] No space left on device; project may be in an inconsistent version state"
     = "error: pyproject.toml does not belong to 'asf-example'" \/
     "error: failed to update pyproject.toml: [Errno 28] No space left on device; project may be in an inconsistent version state"
     = "error: not inside a git repository" \/
     "error: failed to update pyproject.toml: [Errno 28] No space left on device; project may be in an inconsistent version state"
     = "error: --bump-dev, --bump-release, or --bump-specific is required" \/
     "error: failed to update pyproject.toml: [Errno 28] No space left on device; project may be in an inconsistent version state"
     = "error: a working tree, not a bare git repository, is required" \/
     "error: failed to update pyproject.toml: [Errno 28] No space left on device; project may be in an inconsistent version state"
     = "error: pyproject.toml is in HEAD, but not a regular file" \/
     "error: failed to update pyproject.toml: [Errno 28] No space left on device; project may be in an inconsistent version state"
     = "error: version missing in pyproject.toml in HEAD" \/
     exists s,
       "error: failed to update pyproject.toml: [Errno 28] No space left on device; project may be in an inconsistent version state"
       = "error: unsupported version format: " +:+ s)) \/
   "error: failed to update pyproject.toml: [Errno 28] No space left on device; project may be in an inconsistent version state"
   = "error: failed to update VERSION constant in __init__.py" \/
   exists cause,
     "error: failed to update pyproject.toml: [Errno 28] No space left on device; project may be in an inconsistent version state"
     = "error: failed to update pyproject.toml: " +:+ cause
       +:+ "; project may be in an inconsistent version state").
Proof.
  apply (run_using_args_exits full_disk_cli release_args example_files).
  by vm_compute.
Defined.
